(** * Pytree polyfills: flatten, iterate, unflatten

    A shallow embedding of [torch/_dynamo/polyfills/pytree.py]: the
    stack-based walker [tree_iter], the frozen dataclass [PyTreeSpec] with its
    [__post_init__] hook, the recursive [tree_flatten] and the reconstruction
    [PyTreeSpec.unflatten] / [tree_unflatten].

    The container registry of optree is outside the file under study; it is
    taken as a parameter of the development ([registry_get]). *)

From Stdlib Require Import String ZArith.
From Stdlib Require Import Arith Lia Bool List.
Import ListNotations.
Local Open Scope string_scope.
Local Open Scope nat_scope.
Local Open Scope list_scope.

Set Implicit Arguments.
#[local] Set Warnings "-register-all".

(** ** Python objects *)

(** Runtime types are named, as [type(node)] prints them. *)
Definition PyType := string.

(** A Python object as the traversal sees it: the none value, two kinds of
    atoms, and an object of some class that holds an opaque state and an
    ordered sequence of objects.  For a class that is registered as a pytree
    node the held sequence is the [children] that
    [optree.tree_flatten_one_level] returns. *)
Inductive PyTree : Type :=
| PyNone : PyTree
| PyInt (n : Z) : PyTree
| PyStr (s : string) : PyTree
| PyObj (ty : PyType) (state : PyTree) (items : list PyTree) : PyTree.

Definition type_of (node : PyTree) : PyType :=
  match node with
  | PyNone => "NoneType"
  | PyInt _ => "int"
  | PyStr _ => "str"
  | PyObj ty _ _ => ty
  end.

(** [x is None] *)
Definition is_None (node : PyTree) : bool :=
  match node with
  | PyNone => true
  | _ => false
  end.

Definition children_of (node : PyTree) : list PyTree :=
  match node with
  | PyObj _ _ items => items
  | _ => []
  end.

(** Number of objects reachable through the held sequences. *)
Fixpoint tree_size (node : PyTree) : nat :=
  match node with
  | PyObj _ _ items =>
      S ((fix sizes (l : list PyTree) : nat :=
            match l with
            | [] => 0
            | c :: l' => tree_size c + sizes l'
            end) items)
  | _ => 1
  end.

Definition forest_size (l : list PyTree) : nat :=
  fold_right (fun c acc => tree_size c + acc) 0 l.

(** Induction over objects with the hypothesis available for every held
    object. *)
Section PyTree_induction.
Variable P : PyTree -> Prop.
Hypothesis HNone : P PyNone.
Hypothesis HInt : forall n, P (PyInt n).
Hypothesis HStr : forall s, P (PyStr s).
Hypothesis HObj : forall ty state items,
    Forall P items -> P (PyObj ty state items).

Fixpoint PyTree_items_ind (node : PyTree) : P node :=
  match node as t return P t with
  | PyNone => HNone
  | PyInt n => HInt n
  | PyStr s => HStr s
  | PyObj ty state items =>
      HObj ty state
        ((fix all (l : list PyTree) : Forall P l :=
            match l as l0 return Forall P l0 with
            | [] => Forall_nil P
            | c :: l' => Forall_cons c (PyTree_items_ind c) (all l')
            end) items)
  end.
End PyTree_induction.

(** ** Exceptions *)

(** The exceptions the module can raise.  [ValueError] carries the three
    values interpolated into the message of [unflatten]: [len(leaves)],
    [self.num_leaves] and [self]; [TypeError] and [IndexError] come from the
    interpreter or from [tree_unflatten]. *)
Inductive result (S A : Type) : Type :=
| Ok (a : A)
| ValueError (supplied expected : nat) (spec : S)
| TypeError
| IndexError
| AssertionError.

Arguments Ok {S A} a.
Arguments ValueError {S A} supplied expected spec.
Arguments TypeError {S A}.
Arguments IndexError {S A}.
Arguments AssertionError {S A}.

Definition bind {S A B : Type} (m : result S A) (k : A -> result S B)
  : result S B :=
  match m with
  | Ok a => k a
  | ValueError n m s => ValueError n m s
  | TypeError => TypeError
  | IndexError => IndexError
  | AssertionError => AssertionError
  end.

Notation "x <- m ;; k" := (bind m (fun x => k))
  (at level 61, m at next level, right associativity).
Notation "' p <- m ;; k" := (bind m (fun p => k))
  (at level 61, p pattern, m at next level, right associativity).

(** The result is the length-mismatch error of [unflatten]. *)
Definition is_ValueError {S A : Type} (m : result S A) : bool :=
  match m with
  | ValueError _ _ _ => true
  | _ => false
  end.

(** [assert b] *)
Definition assert {S : Type} (b : bool) : result S unit :=
  if b then Ok tt else AssertionError.

(** ** The structure descriptor *)

(** [@dataclass(frozen=True) class PyTreeSpec].  The five init fields, then
    the five fields that [__post_init__] fills in. *)
Inductive PyTreeSpec : Type :=
  Build_PyTreeSpec {
      _children : list PyTreeSpec;
      _type : option PyType;
      _metadata : PyTree;
      _entries : option (list PyTree);
      _unflatten_func : option (PyTree -> list PyTree -> PyTree);
      num_nodes : nat;
      num_leaves : nat;
      num_children : nat;
      none_is_leaf : bool;
      namespace : string
    }.

Definition res := result PyTreeSpec.

(** [sum(f(spec) for spec in children, start=start)] *)
Definition sum_of (f : PyTreeSpec -> nat) (children : list PyTreeSpec)
  (start : nat) : nat :=
  fold_left (fun acc spec => acc + f spec) children start.

(** [callable(f)] for a field that holds a function or [None]. *)
Definition callable {A : Type} (f : option A) : bool :=
  match f with
  | Some _ => true
  | None => false
  end.

Definition is_None_opt {A : Type} (x : option A) : bool :=
  match x with
  | None => true
  | Some _ => false
  end.

(** The constructor call [PyTreeSpec(children, type, metadata, entries,
    unflatten_func)]: the generated [__init__] stores the five arguments and
    [__post_init__] checks them and computes the counts. *)
Definition post_init (children : list PyTreeSpec) (ty : option PyType)
  (metadata : PyTree) (entries : option (list PyTree))
  (unflatten_func : option (PyTree -> list PyTree -> PyTree))
  : res PyTreeSpec :=
  match ty with
  | None =>
      _ <- assert (length children =? 0) ;;
      _ <- assert (is_None metadata) ;;
      _ <- assert (is_None_opt entries) ;;
      _ <- assert (is_None_opt unflatten_func) ;;
      Ok (Build_PyTreeSpec children ty metadata entries unflatten_func
            1 1 0 true "torch")
  | Some _ =>
      _ <- assert (callable unflatten_func) ;;
      let nodes := sum_of num_nodes children 1 in
      let leaves := sum_of num_leaves children 0 in
      let nchildren := length children in
      Ok (Build_PyTreeSpec children ty metadata entries unflatten_func
            nodes leaves nchildren true "torch")
  end.

(** [seq[index]] for a list or tuple: a negative index counts from the end,
    an index outside [-len, len) raises [IndexError] ([None] here). *)
Definition getitem {A : Type} (l : list A) (index : Z) : option A :=
  let n := Z.of_nat (length l) in
  if (index <? 0)%Z then
    if (index + n <? 0)%Z then None
    else nth_error l (Z.to_nat (index + n))
  else nth_error l (Z.to_nat index).

(** [PyTreeSpec.type] *)
Definition type (self : PyTreeSpec) : option PyType := _type self.

(** [PyTreeSpec.is_leaf] *)
Definition is_leaf (self : PyTreeSpec) : bool :=
  (num_nodes self =? 1) && (num_leaves self =? 1).

(** [PyTreeSpec.children] *)
Definition children (self : PyTreeSpec) : list PyTreeSpec := _children self.

(** [PyTreeSpec.child]; a negative index is not modelled. *)
Definition child (self : PyTreeSpec) (index : nat) : res PyTreeSpec :=
  match nth_error (_children self) index with
  | Some c => Ok c
  | None => IndexError
  end.

(** [PyTreeSpec.entries]: [list(None)] raises [TypeError]. *)
Definition entries (self : PyTreeSpec) : res (list PyTree) :=
  match _entries self with
  | Some es => Ok es
  | None => TypeError
  end.

(** [PyTreeSpec.entry]: [self._entries[index]] with a Python int as index;
    subscripting [None] raises [TypeError]. *)
Definition entry (self : PyTreeSpec) (index : Z) : res PyTree :=
  match _entries self with
  | Some es =>
      match getitem es index with
      | Some e => Ok e
      | None => IndexError
      end
  | None => TypeError
  end.

(** [leaves[start:end]] for non-negative bounds. *)
Definition slice {A : Type} (l : list A) (start end_ : nat) : list A :=
  firstn (end_ - start) (skipn start l).

(** [PyTreeSpec.unflatten].  [leaves] is the sequence after
    [list(leaves)] has materialised it.  The [for] loop over
    [self._children] is the inner [loop], which carries [start], [end] and
    [subtrees] ([unflatten_eq] below states it as [for_each_subspec]);
    [assert callable(self._unflatten_func)] followed by the call is the final
    match. *)
Fixpoint unflatten (self : PyTreeSpec) (leaves : list PyTree)
  {struct self} : res PyTree :=
  match self with
  | Build_PyTreeSpec children _ metadata _ unflatten_func
      self_num_nodes self_num_leaves _ _ _ =>
      if negb (length leaves =? self_num_leaves) then
        ValueError (length leaves) self_num_leaves self
      else if (self_num_nodes =? 1) && (self_num_leaves =? 1) then
        match leaves with
        | x :: _ => Ok x
        | [] => IndexError
        end
      else
        subtrees <-
          (fix loop (cs : list PyTreeSpec) (start end_ : nat)
             (subtrees : list PyTree) {struct cs} : res (list PyTree) :=
             match cs with
             | [] => Ok subtrees
             | subspec :: cs' =>
                 let end_ := end_ + num_leaves subspec in
                 t <- unflatten subspec (slice leaves start end_) ;;
                 let start := end_ in
                 loop cs' start end_ (subtrees ++ [t])
             end) children 0 0 [] ;;
        match unflatten_func with
        | Some f => Ok (f metadata subtrees)
        | None => AssertionError
        end
  end.

(** [leafspec = PyTreeSpec([], None, None, None, None)] *)
Definition leafspec : PyTreeSpec :=
  Build_PyTreeSpec [] None PyNone None None 1 1 0 true "torch".

(** ** The container registry (optree, namespace "torch") *)

(** What the registry knows about a registered class: how an instance is
    taken apart (the metadata and the entries; the children are the objects
    the instance holds) and the function that puts it back together. *)
Record PyTreeNodeRegistryEntry : Type :=
  Build_Entry {
      flatten_metadata : PyTree -> PyTree;
      flatten_entries : PyTree -> list PyTree;
      unflatten_func : PyTree -> list PyTree -> PyTree
    }.

(** [optree.tree_flatten_one_level(node, is_leaf=is_leaf, none_is_leaf=True,
    namespace="torch")] for a node whose class has the registry entry [e]. *)
Definition tree_flatten_one_level (e : PyTreeNodeRegistryEntry)
  (node : PyTree)
  : list PyTree * PyTree * list PyTree * (PyTree -> list PyTree -> PyTree) :=
  (children_of node, flatten_metadata e node, flatten_entries e node,
    unflatten_func e).

(** [stack.pop()]: the last element of a Python list. *)
Definition pop {A : Type} (stack : list A) : option (A * list A) :=
  match rev stack with
  | [] => None
  | x :: r => Some (x, rev r)
  end.

Section Polyfills.

(** [optree.register_pytree_node.get(cls, namespace="torch")] *)
Variable registry_get : PyType -> option PyTreeNodeRegistryEntry.

(** [curr is None or (is_leaf is not None and is_leaf(curr))] *)
Definition flagged (is_leaf : option (PyTree -> bool)) (curr : PyTree)
  : bool :=
  is_None curr ||
    match is_leaf with
    | Some p => p curr
    | None => false
    end.

(** One turn of the [while stack:] loop of [tree_iter]: [None] when the
    stack is empty, otherwise the value yielded in this turn (if any) and
    the stack after it. *)
Definition tree_iter_step (is_leaf : option (PyTree -> bool))
  (stack : list PyTree) : option (option PyTree * list PyTree) :=
  match pop stack with
  | None => None
  | Some (curr, stack) =>
      if flagged is_leaf curr then Some (Some curr, stack)
      else
        match registry_get (type_of curr) with
        | None => Some (Some curr, stack)
        | Some e =>
            let '(children, metadata, entries, unflatten_func) :=
              tree_flatten_one_level e curr in
            Some (None, stack ++ rev children)
        end
  end.

(** The generator run to exhaustion from a given stack; [fuel] bounds the
    number of turns of the loop. *)
Fixpoint tree_iter_from (fuel : nat) (is_leaf : option (PyTree -> bool))
  (stack : list PyTree) : option (list PyTree) :=
  match fuel with
  | 0 => None
  | S fuel' =>
      match tree_iter_step is_leaf stack with
      | None => Some []
      | Some (yielded, stack') =>
          match tree_iter_from fuel' is_leaf stack' with
          | None => None
          | Some rest =>
              Some match yielded with
                | Some curr => curr :: rest
                | None => rest
                end
          end
      end
  end.

(** [tree_iter]: [stack = [tree]], then the loop. *)
Definition tree_iter (fuel : nat) (tree : PyTree)
  (is_leaf : option (PyTree -> bool)) : option (list PyTree) :=
  tree_iter_from fuel is_leaf [tree].

(** [tree_leaves]: [list(tree_iter(tree, is_leaf=is_leaf))] *)
Definition tree_leaves (fuel : nat) (tree : PyTree)
  (is_leaf : option (PyTree -> bool)) : option (list PyTree) :=
  tree_iter fuel tree is_leaf.

(** The generator expression [tuple(helper(child, leaves) for child in
    children)]: the children are visited in order and each call appends to
    the same list. *)
Fixpoint for_each_child
  (visit : PyTree -> list PyTree -> res (PyTreeSpec * list PyTree))
  (children : list PyTree) (leaves : list PyTree)
  : res (list PyTreeSpec * list PyTree) :=
  match children with
  | [] => Ok ([], leaves)
  | child :: children' =>
      '(subspec, leaves) <- visit child leaves ;;
      '(subspecs, leaves) <- for_each_child visit children' leaves ;;
      Ok (subspec :: subspecs, leaves)
  end.

(** The closure [helper] of [tree_flatten]; the list [leaves] it appends to
    is threaded through.  The recursion is over the objects the node holds,
    so the loop over [children] is written on the node itself ([each]);
    [helper_eq] below gives the equation in the shape of the source. *)
Fixpoint helper (is_leaf : option (PyTree -> bool)) (node : PyTree)
  (leaves : list PyTree) {struct node} : res (PyTreeSpec * list PyTree) :=
  if flagged is_leaf node then Ok (leafspec, leaves ++ [node])
  else
    let node_type := type_of node in
    match registry_get node_type with
    | None => Ok (leafspec, leaves ++ [node])
    | Some e =>
        let '(children, metadata, entries, unflatten_func) :=
          tree_flatten_one_level e node in
        '(subspecs, leaves) <-
          match node with
          | PyObj _ _ items =>
              (fix each (cs : list PyTree) (leaves : list PyTree)
                 {struct cs} : res (list PyTreeSpec * list PyTree) :=
                 match cs with
                 | [] => Ok ([], leaves)
                 | child :: cs' =>
                     '(subspec, leaves) <- helper is_leaf child leaves ;;
                     '(subspecs, leaves) <- each cs' leaves ;;
                     Ok (subspec :: subspecs, leaves)
                 end) items leaves
          | _ => Ok ([], leaves)
          end ;;
        treespec <- post_init subspecs (Some node_type) metadata
                      (Some entries) (Some unflatten_func) ;;
        Ok (treespec, leaves)
    end.

(** [tree_flatten] *)
Definition tree_flatten (tree : PyTree) (is_leaf : option (PyTree -> bool))
  : res (list PyTree * PyTreeSpec) :=
  let leaves := [] in
  '(treespec, leaves) <- helper is_leaf tree leaves ;;
  Ok (leaves, treespec).

(** [tree_structure]: [tree_flatten(tree, is_leaf=is_leaf)[1]] *)
Definition tree_structure (tree : PyTree)
  (is_leaf : option (PyTree -> bool)) : res PyTreeSpec :=
  r <- tree_flatten tree is_leaf ;;
  Ok (snd r).

End Polyfills.

(** The second argument of [tree_unflatten] is any Python value: a
    [PyTreeSpec] instance or something else. *)
Inductive PyValue : Type :=
| SpecValue (treespec : PyTreeSpec)
| OtherValue (v : PyTree).

(** [tree_unflatten] *)
Definition tree_unflatten (leaves : list PyTree) (treespec : PyValue)
  : res PyTree :=
  match treespec with
  | OtherValue _ => TypeError
  | SpecValue treespec => unflatten treespec leaves
  end.

(** ** The loop of [unflatten] on its own *)

(** The [for subspec in self._children] loop of [unflatten], with the
    recursive call abstracted as [visit]. *)
Fixpoint for_each_subspec (visit : PyTreeSpec -> list PyTree -> res PyTree)
  (leaves : list PyTree) (cs : list PyTreeSpec) (start end_ : nat)
  (subtrees : list PyTree) {struct cs} : res (list PyTree) :=
  match cs with
  | [] => Ok subtrees
  | subspec :: cs' =>
      let end_ := end_ + num_leaves subspec in
      t <- visit subspec (slice leaves start end_) ;;
      let start := end_ in
      for_each_subspec visit leaves cs' start end_ (subtrees ++ [t])
  end.

(** The runs [leaves[start:end]] that the loop hands to the children, in
    child order, when it is entered with [start = end = offset]. *)
Fixpoint child_runs (leaves : list PyTree) (cs : list PyTreeSpec)
  (offset : nat) : list (list PyTree) :=
  match cs with
  | [] => []
  | subspec :: cs' =>
      slice leaves offset (offset + num_leaves subspec)
        :: child_runs leaves cs' (offset + num_leaves subspec)
  end.

(** ** Specs the code can construct *)

(** A spec is constructed when it is the result of a successful constructor
    call on constructed children. *)
Inductive constructed : PyTreeSpec -> Prop :=
| constructed_by (cs : list PyTreeSpec) (ty : option PyType)
    (metadata : PyTree) (es : option (list PyTree))
    (f : option (PyTree -> list PyTree -> PyTree)) (s : PyTreeSpec) :
    Forall constructed cs ->
    post_init cs ty metadata es f = Ok s ->
    constructed s.

(** Induction over constructed specs with the hypothesis available for every
    child. *)
Section constructed_induction.
Variable Q : PyTreeSpec -> Prop.
Hypothesis step :
  forall cs ty metadata es f s,
    Forall constructed cs -> Forall Q cs ->
    post_init cs ty metadata es f = Ok s -> Q s.

Fixpoint constructed_children_ind (s : PyTreeSpec) (H : constructed s)
  {struct H} : Q s :=
  match H in constructed s0 return Q s0 with
  | @constructed_by cs ty metadata es f s0 Hcs Hpost =>
      step ty metadata es f Hcs
        ((fix all (l : list PyTreeSpec) (Hl : Forall constructed l)
            {struct Hl} : Forall Q l :=
            match Hl in Forall _ l0 return Forall Q l0 with
            | Forall_nil _ => Forall_nil Q
            | @Forall_cons _ _ c l' Hc Hl' =>
                Forall_cons c (constructed_children_ind Hc) (all l' Hl')
            end) cs Hcs)
        Hpost
  end.
End constructed_induction.

(** [sub] occurs inside [s]: it is [s] or occurs inside one of its
    children. *)
Inductive subspec (sub : PyTreeSpec) : PyTreeSpec -> Prop :=
| subspec_here : subspec sub sub
| subspec_below (s c : PyTreeSpec) :
    In c (_children s) -> subspec sub c -> subspec sub s.

(** ** Reference traversal *)

Section Reference.

Variable registry_get : PyType -> option PyTreeNodeRegistryEntry.
Variable is_leaf : option (PyTree -> bool).

(** A node at which both traversals stop. *)
Definition stops_at (node : PyTree) : bool :=
  flagged is_leaf node ||
    match registry_get (type_of node) with
    | None => true
    | Some _ => false
    end.

(** The leaves below a node, left to right. *)
Fixpoint leaves_of (node : PyTree) : list PyTree :=
  if stops_at node then [node]
  else
    match node with
    | PyObj _ _ items => flat_map leaves_of items
    | _ => []
    end.

(** The spec below a node: the canonical leaf spec where the traversal
    stops, otherwise the fields that the constructor call of [helper]
    stores and computes. *)
Fixpoint spec_of (node : PyTree) : PyTreeSpec :=
  if flagged is_leaf node then leafspec
  else
    match registry_get (type_of node) with
    | None => leafspec
    | Some e =>
        let subspecs :=
          match node with
          | PyObj _ _ items => map spec_of items
          | _ => []
          end in
        Build_PyTreeSpec subspecs (Some (type_of node))
          (flatten_metadata e node) (Some (flatten_entries e node))
          (Some (unflatten_func e))
          (sum_of num_nodes subspecs 1) (sum_of num_leaves subspecs 0)
          (length subspecs) true "torch"
    end.

End Reference.

(** The registry hands back, for every instance of a registered class, the
    pieces from which its own [unflatten_func] rebuilds that instance. *)
Definition registry_rebuilds
  (registry_get : PyType -> option PyTreeNodeRegistryEntry) : Prop :=
  forall (node : PyTree) (e : PyTreeNodeRegistryEntry),
    registry_get (type_of node) = Some e ->
    unflatten_func e (flatten_metadata e node) (children_of node) = node.

(** ** A registry for the examples *)

(** [(0, 1, ..., n-1)] *)
Definition index_entries (n : nat) : list PyTree :=
  map (fun i => PyInt (Z.of_nat i)) (seq 0 n).

Definition state_of (node : PyTree) : PyTree :=
  match node with
  | PyObj _ state _ => state
  | _ => PyNone
  end.

(** Tuples and lists: the state is [None], the entries are the indices. *)
Definition sequence_entry (ty : PyType) : PyTreeNodeRegistryEntry :=
  Build_Entry state_of
    (fun node => index_entries (length (children_of node)))
    (fun metadata children => PyObj ty metadata children).

(** Dicts: the state is the list of keys in insertion order, which is both
    the metadata and the entries; the held objects are the values. *)
Definition dict_entry : PyTreeNodeRegistryEntry :=
  Build_Entry state_of
    (fun node => children_of (state_of node))
    (fun metadata children => PyObj "dict" metadata children).

Definition example_registry (ty : PyType)
  : option PyTreeNodeRegistryEntry :=
  if String.eqb ty "tuple" then Some (sequence_entry "tuple")
  else if String.eqb ty "list" then Some (sequence_entry "list")
  else if String.eqb ty "dict" then Some dict_entry
  else None.

Definition py_tuple (items : list PyTree) : PyTree :=
  PyObj "tuple" PyNone items.

Definition py_list (items : list PyTree) : PyTree :=
  PyObj "list" PyNone items.

Definition py_dict (kvs : list (PyTree * PyTree)) : PyTree :=
  PyObj "dict" (py_list (map fst kvs)) (map snd kvs).

(** [(1, [2, 3])] *)
Definition scenario_A : PyTree :=
  py_tuple [PyInt 1; py_list [PyInt 2; PyInt 3]].

(** [{"a": 1, "b": {"c": 2}}] *)
Definition scenario_C : PyTree :=
  py_dict [(PyStr "a", PyInt 1);
           (PyStr "b", py_dict [(PyStr "c", PyInt 2)])].

(** An instance of a class that is not registered. *)
Definition scenario_D : PyTree :=
  PyObj "Tensor" (PyInt 7) [PyInt 1; PyInt 2].

(** [([],)]: a tuple that holds one empty list. *)
Definition tuple_of_empty_list : PyTree := py_tuple [py_list []].

Definition spec_or_leafspec (r : res PyTreeSpec) : PyTreeSpec :=
  match r with
  | Ok s => s
  | _ => leafspec
  end.

(** The spec of [([],)] in the example registry. *)
Definition tuple_of_empty_list_spec : PyTreeSpec :=
  spec_or_leafspec (tree_structure example_registry tuple_of_empty_list None).

(** The spec of [(1, [2, 3])] in the example registry. *)
Definition scenario_A_spec : PyTreeSpec :=
  spec_or_leafspec (tree_structure example_registry scenario_A None).

(** [PyTreeSpec((), tuple, None, None, f)] with [f] the reconstruction
    function of tuples: the constructor call succeeds, [__post_init__] checks
    only that [f] is callable. *)
Definition internal_spec_without_entries : PyTreeSpec :=
  spec_or_leafspec
    (post_init [] (Some "tuple") PyNone None
       (Some (unflatten_func (sequence_entry "tuple")))).

(** ** Indexing with a Python int *)

(** [PyTreeSpec.child] with a Python int as index. *)
Definition child_int (self : PyTreeSpec) (index : Z) : res PyTreeSpec :=
  match getitem (_children self) index with
  | Some c => Ok c
  | None => IndexError
  end.

(** ** Counting over a whole spec *)

(** The number of specs in a spec, itself included. *)
Fixpoint spec_nodes (s : PyTreeSpec) : nat :=
  match s with
  | Build_PyTreeSpec cs _ _ _ _ _ _ _ _ _ =>
      S (list_sum (map spec_nodes cs))
  end.

(** The number of specs without node type in a spec. *)
Fixpoint spec_leaves (s : PyTreeSpec) : nat :=
  match s with
  | Build_PyTreeSpec cs None _ _ _ _ _ _ _ _ => 1
  | Build_PyTreeSpec cs (Some _) _ _ _ _ _ _ _ _ =>
      list_sum (map spec_leaves cs)
  end.

(** ** Resuming the generator *)

(** [next(it)] on the generator [tree_iter] suspended with the given stack:
    the loop turns until a value is yielded.  [None] when the fuel runs out,
    [Some None] for [StopIteration], otherwise the yielded value and the
    stack with which the generator is suspended again. *)
Fixpoint tree_iter_next
  (registry_get : PyType -> option PyTreeNodeRegistryEntry) (fuel : nat)
  (is_leaf : option (PyTree -> bool)) (stack : list PyTree)
  : option (option (PyTree * list PyTree)) :=
  match fuel with
  | 0 => None
  | S fuel' =>
      match tree_iter_step registry_get is_leaf stack with
      | None => Some None
      | Some (Some curr, stack') => Some (Some (curr, stack'))
      | Some (None, stack') =>
          tree_iter_next registry_get fuel' is_leaf stack'
      end
  end.

(** What the reconstruction function of a registered class returns is an
    instance of that class that holds the children it was given. *)
Definition registry_constructs
  (registry_get : PyType -> option PyTreeNodeRegistryEntry) : Prop :=
  forall (ty : PyType) (e : PyTreeNodeRegistryEntry) (metadata : PyTree)
         (children : list PyTree),
    registry_get ty = Some e ->
    type_of (unflatten_func e metadata children) = ty /\
    children_of (unflatten_func e metadata children) = children.

(** [x] is [tree] or is held, at some depth, by [tree]. *)
Inductive occurs_in (x : PyTree) : PyTree -> Prop :=
| occurs_here : occurs_in x x
| occurs_below (tree child : PyTree) :
    In child (children_of tree) -> occurs_in x child -> occurs_in x tree.

(** * Properties *)

(** ** Lists, stacks and slices *)

Lemma pop_snoc (A : Type) (l : list A) (x : A) : pop (l ++ [x]) = Some (x, l).
Proof.
  unfold pop. rewrite rev_app_distr. simpl. now rewrite rev_involutive.
Qed.

Lemma forest_size_app l1 l2 :
  forest_size (l1 ++ l2) = forest_size l1 + forest_size l2.
Proof.
  induction l1 as [|c cs IH]; simpl; [reflexivity|]. rewrite IH. lia.
Qed.

Lemma tree_size_pos node : 0 < tree_size node.
Proof. destruct node; simpl; lia. Qed.

Lemma sum_of_eq f cs start : sum_of f cs start = start + list_sum (map f cs).
Proof.
  unfold sum_of. revert start.
  induction cs as [|c cs IH]; intros start; simpl; [lia|].
  rewrite IH. lia.
Qed.

Lemma slice_exact (A : Type) (pre run post : list A) :
  slice (pre ++ run ++ post) (length pre) (length pre + length run) = run.
Proof.
  unfold slice.
  replace (length pre + length run - length pre) with (length run) by lia.
  induction pre as [|x pre IH]; simpl; [|exact IH].
  induction run as [|y run IH]; simpl; [reflexivity|]. now rewrite IH.
Qed.

Lemma slice_length (A : Type) (l : list A) start end_ :
  end_ <= length l -> length (slice l start end_) = end_ - start.
Proof.
  intros H. unfold slice. rewrite length_firstn, length_skipn. lia.
Qed.

Lemma firstn_plus (A : Type) (l : list A) n m :
  firstn (n + m) l = firstn n l ++ firstn m (skipn n l).
Proof.
  revert l. induction n as [|n IH]; intros l; simpl; [reflexivity|].
  destruct l as [|x l]; simpl; [now rewrite firstn_nil|]. now rewrite IH.
Qed.

(** Two adjacent slices make one. *)
Lemma slice_adjacent (A : Type) (l : list A) start n m :
  slice l start (start + n) ++ slice l (start + n) (start + n + m) =
    slice l start (start + n + m).
Proof.
  unfold slice.
  replace (start + n - start) with n by lia.
  replace (start + n + m - (start + n)) with m by lia.
  replace (start + n + m - start) with (n + m) by lia.
  rewrite firstn_plus, skipn_skipn. do 3 f_equal. lia.
Qed.

(** ** The recursive flatten *)

Section FlattenFacts.

Variable registry_get : PyType -> option PyTreeNodeRegistryEntry.
Variable P : option (PyTree -> bool).

(** [helper] in the shape of the source: the registry lookup, the one-level
    decomposition, the generator expression over the children and the
    constructor call. *)
Lemma helper_eq node leaves :
  helper registry_get P node leaves =
    if flagged P node then Ok (leafspec, leaves ++ [node])
    else
      match registry_get (type_of node) with
      | None => Ok (leafspec, leaves ++ [node])
      | Some e =>
          let '(children, metadata, entries, unflatten_func) :=
            tree_flatten_one_level e node in
          '(subspecs, leaves) <-
            for_each_child (helper registry_get P) children leaves ;;
          treespec <- post_init subspecs (Some (type_of node)) metadata
                        (Some entries) (Some unflatten_func) ;;
          Ok (treespec, leaves)
      end.
Proof.
  destruct node as [| n | s | ty state items]; try reflexivity.
  cbn [helper type_of tree_flatten_one_level children_of].
  destruct (flagged P (PyObj ty state items)); [reflexivity|].
  destruct (registry_get ty) as [e|]; [|reflexivity].
  f_equal. revert leaves.
  induction items as [|c cs IH]; intros leaves; simpl; [reflexivity|].
  destruct (helper registry_get P c leaves) as [[s l]| | | |]; simpl;
    try reflexivity.
  now rewrite IH.
Qed.

Lemma leaves_of_eq node :
  leaves_of registry_get P node =
    if stops_at registry_get P node then [node]
    else flat_map (leaves_of registry_get P) (children_of node).
Proof. destruct node; reflexivity. Qed.

Lemma spec_of_eq node :
  spec_of registry_get P node =
    if flagged P node then leafspec
    else
      match registry_get (type_of node) with
      | None => leafspec
      | Some e =>
          let subspecs := map (spec_of registry_get P) (children_of node) in
          Build_PyTreeSpec subspecs (Some (type_of node))
            (flatten_metadata e node) (Some (flatten_entries e node))
            (Some (unflatten_func e))
            (sum_of num_nodes subspecs 1) (sum_of num_leaves subspecs 0)
            (length subspecs) true "torch"
      end.
Proof. destruct node; reflexivity. Qed.

(** The loop over the children, once every child behaves as the reference
    traversal says. *)
Lemma for_each_child_reference visit items :
  Forall (fun c => forall leaves,
              visit c leaves =
                Ok (spec_of registry_get P c,
                    leaves ++ leaves_of registry_get P c)) items ->
  forall leaves,
    for_each_child visit items leaves =
      Ok (map (spec_of registry_get P) items,
          leaves ++ flat_map (leaves_of registry_get P) items).
Proof.
  induction 1 as [|c cs Hc _ IH]; intros leaves; simpl.
  - now rewrite app_nil_r.
  - rewrite Hc. simpl. rewrite IH. simpl. now rewrite app_assoc.
Qed.

(** [helper] returns the reference spec and appends the reference leaves
    to the list it was given; it raises nothing. *)
Lemma helper_reference node :
  forall leaves,
    helper registry_get P node leaves =
      Ok (spec_of registry_get P node,
          leaves ++ leaves_of registry_get P node).
Proof.
  induction node as [| n | s | ty state items IH] using PyTree_items_ind;
    intros leaves; rewrite helper_eq, spec_of_eq, leaves_of_eq;
    unfold stops_at; destruct (flagged P _); simpl; try reflexivity;
    destruct (registry_get _) as [e|]; simpl; try reflexivity;
    try now rewrite app_nil_r.
  rewrite (for_each_child_reference _ IH). reflexivity.
Qed.

Lemma tree_flatten_reference tree :
  tree_flatten registry_get tree P =
    Ok (leaves_of registry_get P tree, spec_of registry_get P tree).
Proof. unfold tree_flatten. now rewrite helper_reference. Qed.

Lemma tree_structure_reference tree :
  tree_structure registry_get tree P = Ok (spec_of registry_get P tree).
Proof. unfold tree_structure. now rewrite tree_flatten_reference. Qed.

End FlattenFacts.

(** ** The constructor hook and the count invariants *)

Lemma post_init_leafspec : post_init [] None PyNone None None = Ok leafspec.
Proof. reflexivity. Qed.

Lemma post_init_leaf cs metadata es f s :
  post_init cs None metadata es f = Ok s ->
  cs = [] /\ metadata = PyNone /\ es = None /\ f = None /\ s = leafspec.
Proof.
  unfold post_init.
  destruct cs as [|c cs]; simpl; [|discriminate].
  destruct metadata; simpl; try discriminate.
  destruct es; simpl; [discriminate|].
  destruct f; simpl; [discriminate|].
  intros H. injection H as <-. repeat split; reflexivity.
Qed.

Lemma post_init_internal cs ty metadata es f s :
  post_init cs (Some ty) metadata es f = Ok s ->
  exists g, f = Some g /\
    s = Build_PyTreeSpec cs (Some ty) metadata es (Some g)
          (sum_of num_nodes cs 1) (sum_of num_leaves cs 0) (length cs)
          true "torch".
Proof.
  unfold post_init. destruct f as [g|]; simpl; [|discriminate].
  intros H. injection H as <-. now exists g.
Qed.

(** The fields a constructed spec stores are the arguments it was built
    from, and its children are constructed. *)
Lemma constructed_children s : constructed s -> Forall constructed (_children s).
Proof.
  intros [cs ty metadata es f s' Hcs Hpost]. destruct ty as [ty|].
  - apply post_init_internal in Hpost as (g & _ & ->). exact Hcs.
  - apply post_init_leaf in Hpost as (_ & _ & _ & _ & ->). constructor.
Qed.

Lemma constructed_leaf s : constructed s -> _type s = None -> s = leafspec.
Proof.
  intros [cs ty metadata es f s' Hcs Hpost] Hty. destruct ty as [ty|].
  - apply post_init_internal in Hpost as (g & _ & ->). discriminate.
  - now apply post_init_leaf in Hpost as (_ & _ & _ & _ & ->).
Qed.

Lemma constructed_internal s ty :
  constructed s -> _type s = Some ty ->
  exists g, _unflatten_func s = Some g /\
    num_nodes s = 1 + list_sum (map num_nodes (_children s)) /\
    num_leaves s = list_sum (map num_leaves (_children s)) /\
    num_children s = length (_children s).
Proof.
  intros [cs ty' metadata es f s' Hcs Hpost] Hty. destruct ty' as [ty'|].
  - apply post_init_internal in Hpost as (g & _ & ->). simpl.
    exists g. rewrite !sum_of_eq. repeat split; reflexivity.
  - apply post_init_leaf in Hpost as (_ & _ & _ & _ & ->). discriminate.
Qed.

Lemma constructed_leafspec : constructed leafspec.
Proof.
  apply (@constructed_by [] None PyNone None None); [constructor|reflexivity].
Qed.

Lemma constructed_node cs ty metadata es g :
  Forall constructed cs ->
  constructed
    (Build_PyTreeSpec cs (Some ty) metadata es (Some g)
       (sum_of num_nodes cs 1) (sum_of num_leaves cs 0) (length cs)
       true "torch").
Proof.
  intros Hcs.
  now apply (@constructed_by cs (Some ty) metadata es (Some g)).
Qed.

Lemma constructed_num_nodes_pos s : constructed s -> 1 <= num_nodes s.
Proof.
  intros H. destruct (_type s) as [ty|] eqn:Hty.
  - destruct (constructed_internal H Hty) as (_ & _ & -> & _). lia.
  - rewrite (constructed_leaf H Hty). simpl. lia.
Qed.

Lemma list_sum_num_nodes_pos cs :
  Forall constructed cs -> length cs <= list_sum (map num_nodes cs).
Proof.
  induction 1 as [|c cs Hc _ IH]; simpl; [lia|].
  apply constructed_num_nodes_pos in Hc. lia.
Qed.

(** For a constructed spec the structural test of [is_leaf] and the absence
    of a node type agree. *)
Lemma constructed_is_leaf s :
  constructed s -> (is_leaf s = true <-> _type s = None).
Proof.
  intros H. unfold is_leaf. destruct (_type s) as [ty|] eqn:Hty.
  - destruct (constructed_internal H Hty) as (_ & _ & Hn & Hl & _).
    pose proof (list_sum_num_nodes_pos (constructed_children H)) as Hpos.
    split; [|discriminate]. rewrite andb_true_iff, !Nat.eqb_eq.
    intros [Hn1 Hl1]. exfalso.
    destruct (_children s) as [|c cs]; simpl in *; lia.
  - rewrite (constructed_leaf H Hty). simpl. tauto.
Qed.

(** ** The loop of [unflatten] *)

(** [unflatten] in the shape of the source. *)
Lemma unflatten_eq self leaves :
  unflatten self leaves =
    if negb (length leaves =? num_leaves self) then
      ValueError (length leaves) (num_leaves self) self
    else if is_leaf self then
      match leaves with
      | x :: _ => Ok x
      | [] => IndexError
      end
    else
      subtrees <- for_each_subspec unflatten leaves (_children self) 0 0 [] ;;
      match _unflatten_func self with
      | Some f => Ok (f (_metadata self) subtrees)
      | None => AssertionError
      end.
Proof.
  destruct self as [cs ty metadata es f nn nl nc b ns].
  cbn [unflatten num_leaves num_nodes _children _unflatten_func _metadata].
  unfold is_leaf; cbn [num_leaves num_nodes].
  destruct (negb _); [reflexivity|].
  destruct (_ && _); [reflexivity|].
  f_equal.
  enough (Hloop : forall start end_ acc,
             (fix loop (cs : list PyTreeSpec) (start end_ : nat)
                (subtrees : list PyTree) {struct cs} : res (list PyTree) :=
                match cs with
                | [] => Ok subtrees
                | subspec :: cs' =>
                    let end_ := end_ + num_leaves subspec in
                    t <- unflatten subspec (slice leaves start end_) ;;
                    let start := end_ in
                    loop cs' start end_ (subtrees ++ [t])
                end) cs start end_ acc =
             for_each_subspec unflatten leaves cs start end_ acc)
    by apply Hloop.
  induction cs as [|c cs IH]; intros start end_ acc; simpl; [reflexivity|].
  destruct (unflatten c _); simpl; try reflexivity. apply IH.
Qed.

(** When the leaves reach as far as the children's counts, the runs have the
    children's lengths and follow one another without gap or overlap. *)
Lemma child_runs_partition leaves cs offset :
  offset + list_sum (map num_leaves cs) <= length leaves ->
  Forall2 (fun c run => length run = num_leaves c)
    cs (child_runs leaves cs offset) /\
  concat (child_runs leaves cs offset) =
    slice leaves offset (offset + list_sum (map num_leaves cs)).
Proof.
  revert offset.
  induction cs as [|c cs IH]; intros offset Hlen; simpl in *.
  - split; [constructor|]. unfold slice.
    now replace (offset + 0 - offset) with 0 by lia.
  - destruct (IH (offset + num_leaves c)) as [Hall Hcat]; [lia|]. split.
    + constructor; [|exact Hall]. rewrite slice_length by lia. lia.
    + rewrite Hcat, Nat.add_assoc. apply slice_adjacent.
Qed.

(** If every child can be rebuilt from a run of its own length, the loop
    rebuilds all of them from the runs it cuts. *)
Lemma for_each_subspec_total visit leaves cs :
  Forall (fun c => forall l, length l = num_leaves c ->
                             exists t, visit c l = Ok t) cs ->
  forall offset subtrees,
    offset + list_sum (map num_leaves cs) <= length leaves ->
    exists ts,
      for_each_subspec visit leaves cs offset offset subtrees =
        Ok (subtrees ++ ts) /\
      Forall2 (fun p t => visit (fst p) (snd p) = Ok t)
        (combine cs (child_runs leaves cs offset)) ts.
Proof.
  induction 1 as [|c cs Hc _ IH]; intros offset subtrees Hlen; simpl in *.
  - exists []. rewrite app_nil_r. split; [reflexivity|constructor].
  - destruct (Hc (slice leaves offset (offset + num_leaves c))) as [t Ht].
    { rewrite slice_length by lia. lia. }
    rewrite Ht. simpl.
    destruct (IH (offset + num_leaves c) (subtrees ++ [t])) as (ts & Hts & Hall);
      [lia|].
    exists (t :: ts). rewrite Hts, <- app_assoc. split; [reflexivity|].
    constructor; [exact Ht|exact Hall].
Qed.

(** A constructed spec rebuilds a tree from any list of the right length;
    the subtrees handed to the reconstruction function are the children's
    results on their runs. *)
Lemma unflatten_constructed s :
  constructed s ->
  forall leaves,
    length leaves = num_leaves s ->
    exists t, unflatten s leaves = Ok t.
Proof.
  intros H. induction H as [cs ty metadata es f s Hcs IH Hpost]
    using constructed_children_ind.
  intros leaves Hlen.
  assert (Hs : constructed s) by (eapply constructed_by; eassumption).
  rewrite unflatten_eq, Hlen, Nat.eqb_refl. simpl.
  destruct (is_leaf s) eqn:Hleaf.
  - apply (constructed_is_leaf Hs) in Hleaf.
    rewrite (constructed_leaf Hs Hleaf) in Hlen.
    destruct leaves as [|x leaves]; [discriminate|]. now exists x.
  - destruct ty as [ty|].
    + apply post_init_internal in Hpost as (g & -> & ->).
      cbn [_children _unflatten_func _metadata num_leaves] in *.
      rewrite sum_of_eq in Hlen.
      destruct (@for_each_subspec_total unflatten leaves cs IH 0 [])
        as (ts & Hts & _); [simpl; lia|].
      rewrite Hts. simpl. now eexists.
    + apply post_init_leaf in Hpost as (_ & _ & _ & _ & ->). discriminate.
Qed.

(** The length check comes first, on any spec. *)
Lemma unflatten_mismatch s leaves :
  length leaves <> num_leaves s ->
  unflatten s leaves = ValueError (length leaves) (num_leaves s) s.
Proof.
  intros Hlen. rewrite unflatten_eq.
  apply Nat.eqb_neq in Hlen. now rewrite Hlen.
Qed.

(** ** Flatten builds constructed specs and round-trips *)

Section RoundTrip.

Variable registry_get : PyType -> option PyTreeNodeRegistryEntry.
Variable P : option (PyTree -> bool).

Local Abbreviation spec := (spec_of registry_get P).
Local Abbreviation leaves := (leaves_of registry_get P).

Lemma spec_of_constructed tree : constructed (spec tree).
Proof.
  induction tree as [| n | s | ty state items IH] using PyTree_items_ind;
    rewrite spec_of_eq; destruct (flagged P _);
    try apply constructed_leafspec;
    destruct (registry_get _) as [e|]; try apply constructed_leafspec;
    cbn [children_of map].
  1-3: apply constructed_node; apply Forall_nil.
  apply constructed_node, Forall_map. exact IH.
Qed.

Lemma spec_of_type tree :
  _type (spec tree) =
    if stops_at registry_get P tree then None else Some (type_of tree).
Proof.
  rewrite spec_of_eq. unfold stops_at.
  destruct (flagged P tree); [reflexivity|].
  destruct (registry_get _); reflexivity.
Qed.

Lemma spec_of_children tree :
  _children (spec tree) =
    if stops_at registry_get P tree then []
    else map spec (children_of tree).
Proof.
  rewrite spec_of_eq. unfold stops_at.
  destruct (flagged P tree); [reflexivity|].
  destruct (registry_get _); reflexivity.
Qed.

(** The leaf count of the spec is the length of the leaf list. *)
Lemma spec_of_num_leaves tree :
  num_leaves (spec tree) = length (leaves tree).
Proof.
  induction tree as [| n | s | ty state items IH] using PyTree_items_ind;
    rewrite spec_of_eq, leaves_of_eq; unfold stops_at;
    destruct (flagged P _); try reflexivity;
    destruct (registry_get _) as [e|]; try reflexivity.
  cbn [children_of orb num_leaves]. rewrite sum_of_eq. simpl.
  induction IH as [|c cs Hc _ IHcs]; simpl; [reflexivity|].
  rewrite length_app, Hc, IHcs. reflexivity.
Qed.

(** The loop of [unflatten] over the specs of the held objects, run on
    their concatenated leaves, gives the held objects back. *)
Lemma for_each_subspec_round_trip items :
  Forall (fun c => unflatten (spec c) (leaves c) = Ok c) items ->
  forall pre post subtrees,
    for_each_subspec unflatten (pre ++ flat_map leaves items ++ post)
      (map spec items) (length pre) (length pre) subtrees =
      Ok (subtrees ++ items).
Proof.
  induction 1 as [|c cs Hc _ IH]; intros pre post subtrees; simpl.
  - now rewrite app_nil_r.
  - rewrite spec_of_num_leaves, <- (app_assoc (leaves c)), slice_exact, Hc.
    simpl. rewrite <- length_app.
    rewrite (app_assoc pre (leaves c)), IH, <- app_assoc. reflexivity.
Qed.

Hypothesis Hregistry : registry_rebuilds registry_get.

Lemma unflatten_spec_of_step tree :
  Forall (fun c => unflatten (spec c) (leaves c) = Ok c)
    (children_of tree) ->
  unflatten (spec tree) (leaves tree) = Ok tree.
Proof.
  intros IH.
  rewrite unflatten_eq, spec_of_num_leaves, Nat.eqb_refl. cbn [negb].
  pose proof (constructed_is_leaf (spec_of_constructed tree)) as Hleaf.
  rewrite spec_of_type in Hleaf. rewrite spec_of_children.
  rewrite (leaves_of_eq registry_get P tree).
  destruct (stops_at registry_get P tree) eqn:Hstop.
  - destruct Hleaf as [_ ->]; reflexivity.
  - destruct (is_leaf (spec tree)).
    { destruct Hleaf as [Hleaf _]. discriminate (Hleaf eq_refl). }
    pose proof (for_each_subspec_round_trip IH [] [] []) as Hloop.
    cbn [app length] in Hloop. rewrite app_nil_r in Hloop.
    rewrite Hloop. cbn [bind].
    rewrite spec_of_eq. unfold stops_at in Hstop.
    destruct (flagged P tree); [discriminate|].
    destruct (registry_get (type_of tree)) as [e|] eqn:Hreg;
      [|discriminate].
    cbn [_unflatten_func _metadata]. f_equal. apply (Hregistry _ Hreg).
Qed.

Lemma unflatten_spec_of tree :
  unflatten (spec tree) (leaves tree) = Ok tree.
Proof.
  induction tree as [| n | s | ty state items IH] using PyTree_items_ind;
    apply unflatten_spec_of_step; cbn [children_of];
    [apply Forall_nil .. | exact IH].
Qed.

End RoundTrip.

(** ** The stack-based walker *)

Section IterFacts.

Variable registry_get : PyType -> option PyTreeNodeRegistryEntry.
Variable P : option (PyTree -> bool).

Lemma tree_size_children node :
  tree_size node = S (forest_size (children_of node)).
Proof. destruct node; reflexivity. Qed.

(** With [top_first] the stack read from its top (the end of the Python
    list), the loop yields the leaves of the stacked trees, top first, as
    soon as the fuel exceeds the number of objects on the stack. *)
Lemma tree_iter_from_reference fuel :
  forall top_first,
    forest_size top_first < fuel ->
    tree_iter_from registry_get fuel P (rev top_first) =
      Some (flat_map (leaves_of registry_get P) top_first).
Proof.
  induction fuel as [|fuel IH]; intros top_first Hfuel; [lia|].
  destruct top_first as [|curr rest]; [reflexivity|].
  cbn [rev tree_iter_from flat_map]. unfold tree_iter_step.
  rewrite pop_snoc, leaves_of_eq. unfold stops_at.
  cbn [forest_size fold_right] in Hfuel.
  fold (forest_size rest) in Hfuel.
  pose proof (tree_size_pos curr) as Hpos.
  destruct (flagged P curr); cbn [orb].
  - rewrite IH by lia. reflexivity.
  - destruct (registry_get (type_of curr)) as [e|].
    + cbn [tree_flatten_one_level].
      rewrite <- rev_app_distr, IH, flat_map_app; [reflexivity|].
      rewrite forest_size_app. rewrite tree_size_children in Hfuel. lia.
    + rewrite IH by lia. reflexivity.
Qed.

Lemma tree_leaves_reference fuel tree :
  tree_size tree < fuel ->
  tree_leaves registry_get fuel tree P =
    Some (leaves_of registry_get P tree).
Proof.
  intros Hfuel. unfold tree_leaves, tree_iter.
  change [tree] with (rev [tree]).
  rewrite tree_iter_from_reference; simpl; [now rewrite app_nil_r | lia].
Qed.

End IterFacts.

(** ** The example registry *)

Lemma example_registry_rebuilds : registry_rebuilds example_registry.
Proof.
  intros node e. destruct node as [| n | s | ty state items];
    try discriminate.
  unfold example_registry. cbn [type_of].
  destruct (String.eqb ty "tuple") eqn:Htuple.
  { apply String.eqb_eq in Htuple as ->. now intros [= <-]. }
  destruct (String.eqb ty "list") eqn:Hlist.
  { apply String.eqb_eq in Hlist as ->. now intros [= <-]. }
  destruct (String.eqb ty "dict") eqn:Hdict; [|discriminate].
  apply String.eqb_eq in Hdict as ->. now intros [= <-].
Qed.

(** ** The scenarios of the specification *)

(** Scenario A: [(1, [2, 3])]. *)
Example scenario_A_flatten :
  exists treespec,
    tree_flatten example_registry scenario_A None =
      Ok ([PyInt 1; PyInt 2; PyInt 3], treespec) /\
    num_leaves treespec = 3 /\ num_children treespec = 2 /\
    unflatten treespec [PyInt 1; PyInt 2; PyInt 3] = Ok scenario_A.
Proof. eexists. repeat split; reflexivity. Qed.

(** Scenario B: [None]. *)
Example scenario_B_flatten :
  tree_flatten example_registry PyNone None = Ok ([PyNone], leafspec) /\
  tree_iter example_registry 2 PyNone None = Some [PyNone].
Proof. split; reflexivity. Qed.

(** Scenario C: [{"a": 1, "b": {"c": 2}}]. *)
Example scenario_C_flatten :
  exists treespec,
    tree_flatten example_registry scenario_C None =
      Ok ([PyInt 1; PyInt 2], treespec) /\
    entries treespec = Ok [PyStr "a"; PyStr "b"] /\
    unflatten treespec [PyInt 1; PyInt 2] = Ok scenario_C.
Proof. eexists. repeat split; reflexivity. Qed.

(** Scenario D: an object of an unregistered class. *)
Example scenario_D_flatten :
  tree_flatten example_registry scenario_D None =
    Ok ([scenario_D], leafspec) /\
  tree_iter example_registry 2 scenario_D None = Some [scenario_D].
Proof. split; reflexivity. Qed.

(** A leaf predicate stops the traversal above registered containers. *)
Example scenario_A_with_predicate :
  tree_leaves example_registry 6 scenario_A
    (Some (fun node => String.eqb (type_of node) "list")) =
    Some [PyInt 1; py_list [PyInt 2; PyInt 3]].
Proof. reflexivity. Qed.

(** * The claims *)

(** ** C1: round trip *)

(** C1.  For every tree and every leaf predicate (absent or present),
    [tree_flatten] returns a leaf list and a spec, and [tree_unflatten] on
    that list and that spec returns the tree itself: same classes, same
    child order, same states (keys), every leaf back in its place.  The
    registry is assumed to keep its contract: the reconstruction function of
    a class rebuilds an instance from that instance's own metadata and
    children. *)
Theorem tree_unflatten_tree_flatten
  (registry_get : PyType -> option PyTreeNodeRegistryEntry)
  (Hregistry : registry_rebuilds registry_get)
  (tree : PyTree) (P : option (PyTree -> bool)) :
  exists leaves treespec,
    tree_flatten registry_get tree P = Ok (leaves, treespec) /\
    tree_unflatten leaves (SpecValue treespec) = Ok tree.
Proof.
  exists (leaves_of registry_get P tree), (spec_of registry_get P tree).
  split; [apply tree_flatten_reference|].
  cbn [tree_unflatten]. now apply unflatten_spec_of.
Qed.

Lemma tree_unflatten_tree_flatten_witness :
  registry_rebuilds example_registry /\
  exists leaves treespec,
    tree_flatten example_registry scenario_A None = Ok (leaves, treespec) /\
    tree_unflatten leaves (SpecValue treespec) = Ok scenario_A.
Proof.
  split; [exact example_registry_rebuilds|].
  apply (tree_unflatten_tree_flatten example_registry_rebuilds scenario_A None).
Defined.

(** ** C2: the two traversals agree *)

(** C2.  For every tree and every leaf predicate, once the fuel exceeds the
    number of objects in the tree, [tree_leaves] (the stack-based walker run
    to exhaustion) returns exactly the leaf list that the recursive
    [tree_flatten] returns: same leaves, same order. *)
Theorem tree_leaves_tree_flatten
  (registry_get : PyType -> option PyTreeNodeRegistryEntry)
  (tree : PyTree) (P : option (PyTree -> bool)) (fuel : nat)
  (Hfuel : tree_size tree < fuel) :
  exists leaves treespec,
    tree_flatten registry_get tree P = Ok (leaves, treespec) /\
    tree_leaves registry_get fuel tree P = Some leaves.
Proof.
  exists (leaves_of registry_get P tree), (spec_of registry_get P tree).
  split; [apply tree_flatten_reference|].
  now apply tree_leaves_reference.
Qed.

Lemma tree_leaves_tree_flatten_witness :
  tree_size scenario_A < 6 /\
  exists leaves treespec,
    tree_flatten example_registry scenario_A None = Ok (leaves, treespec) /\
    tree_leaves example_registry 6 scenario_A None = Some leaves.
Proof.
  split; [vm_compute; lia|].
  apply (@tree_leaves_tree_flatten example_registry scenario_A None 6).
  vm_compute; lia.
Defined.

(** ** C3: count invariants and exact partition *)

(** C3.  A constructed spec without node type has [num_nodes = 1],
    [num_leaves = 1], [num_children = 0]; one with a node type has
    [num_nodes] one more than the sum over its children, [num_leaves] the
    sum over its children and [num_children] their number; its children are
    constructed specs again.  Specs are values, so nothing changes these
    fields later.  Consequently [unflatten], given a list of [num_leaves]
    leaves, cuts it into the runs [child_runs]: run [i] has length
    [children[i].num_leaves], the runs concatenated are the whole list (no
    gap, no overlap), every child is unflattened on its own run, and the
    result is the reconstruction function applied to the children's
    results. *)
Theorem constructed_counts_partition (s : PyTreeSpec) (Hs : constructed s) :
  (_type s = None ->
   num_nodes s = 1 /\ num_leaves s = 1 /\ num_children s = 0) /\
  (_type s <> None ->
   num_nodes s = 1 + list_sum (map num_nodes (_children s)) /\
   num_leaves s = list_sum (map num_leaves (_children s)) /\
   num_children s = length (_children s)) /\
  Forall constructed (_children s) /\
  (forall leaves,
      _type s <> None ->
      length leaves = num_leaves s ->
      let runs := child_runs leaves (_children s) 0 in
      Forall2 (fun c run => length run = num_leaves c) (_children s) runs /\
      concat runs = leaves /\
      exists g subtrees,
        _unflatten_func s = Some g /\
        Forall2 (fun p t => unflatten (fst p) (snd p) = Ok t)
          (combine (_children s) runs) subtrees /\
        unflatten s leaves = Ok (g (_metadata s) subtrees)).
Proof.
  split; [|split; [|split]].
  - intros Hty. now rewrite (constructed_leaf Hs Hty).
  - intros Hty. destruct (_type s) as [ty|] eqn:Hty'; [|contradiction].
    destruct (constructed_internal Hs Hty') as (_ & _ & Hn & Hl & Hc).
    now rewrite Hn, Hl, Hc.
  - now apply constructed_children.
  - intros leaves Hty Hlen runs.
    destruct (_type s) as [ty|] eqn:Hty'; [|contradiction].
    destruct (constructed_internal Hs Hty') as (g & Hg & _ & Hsum & _).
    destruct (@child_runs_partition leaves (_children s) 0) as [Hall Hcat];
      [simpl; lia|].
    split; [exact Hall|]. split.
    { subst runs. rewrite Hcat.
      unfold slice. simpl. rewrite Nat.sub_0_r, <- Hsum, <- Hlen.
      apply firstn_all. }
    assert (Hcs : Forall (fun c => forall l, length l = num_leaves c ->
                                             exists t, unflatten c l = Ok t)
                    (_children s)).
    { eapply Forall_impl; [|apply (constructed_children Hs)].
      intros c Hc l Hl. now apply unflatten_constructed. }
    destruct (@for_each_subspec_total unflatten leaves (_children s) Hcs 0 [])
      as (ts & Hts & Hvisits); [simpl; lia|].
    exists g, ts. split; [exact Hg|]. split; [exact Hvisits|].
    assert (Hleaf : is_leaf s = false).
    { destruct (is_leaf s) eqn:Hl; [|reflexivity].
      apply (constructed_is_leaf Hs) in Hl. congruence. }
    rewrite unflatten_eq, Hlen, Nat.eqb_refl, Hleaf, Hts, Hg. reflexivity.
Qed.

Lemma constructed_counts_partition_witness :
  (constructed scenario_A_spec /\
   _type scenario_A_spec <> None /\
   length [PyInt 1; PyInt 2; PyInt 3] = num_leaves scenario_A_spec) /\
  child_runs [PyInt 1; PyInt 2; PyInt 3] (_children scenario_A_spec) 0 =
    [[PyInt 1]; [PyInt 2; PyInt 3]] /\
  Forall2 (fun c run => length run = num_leaves c)
    (_children scenario_A_spec)
    (child_runs [PyInt 1; PyInt 2; PyInt 3] (_children scenario_A_spec) 0) /\
  concat
    (child_runs [PyInt 1; PyInt 2; PyInt 3] (_children scenario_A_spec) 0) =
    [PyInt 1; PyInt 2; PyInt 3] /\
  exists g subtrees,
    _unflatten_func scenario_A_spec = Some g /\
    Forall2 (fun p t => unflatten (fst p) (snd p) = Ok t)
      (combine (_children scenario_A_spec)
         (child_runs [PyInt 1; PyInt 2; PyInt 3]
            (_children scenario_A_spec) 0))
      subtrees /\
    unflatten scenario_A_spec [PyInt 1; PyInt 2; PyInt 3] =
      Ok (g (_metadata scenario_A_spec) subtrees).
Proof.
  assert (H : constructed scenario_A_spec)
    by apply (spec_of_constructed example_registry None scenario_A).
  assert (Hty : _type scenario_A_spec <> None) by discriminate.
  assert (Hlen : length [PyInt 1; PyInt 2; PyInt 3] =
                   num_leaves scenario_A_spec) by reflexivity.
  split; [split; [exact H|split; [exact Hty|exact Hlen]]|].
  split; [reflexivity|].
  destruct (constructed_counts_partition H) as (_ & _ & _ & Hruns).
  exact (Hruns [PyInt 1; PyInt 2; PyInt 3] Hty Hlen).
Defined.

(** ** C4: the length check *)

(** C4.  On a constructed spec, [unflatten] ends in the length-mismatch
    error exactly when the list of leaves does not have [num_leaves]
    elements; the error then carries the supplied count, the expected count
    and the spec.  When the lengths agree the call returns a tree, so no
    length-mismatch error is raised in any nested call either (an error of a
    nested call would have been propagated). *)
Theorem unflatten_length_check (s : PyTreeSpec) (Hs : constructed s)
  (leaves : list PyTree) :
  (is_ValueError (unflatten s leaves) = true <->
   length leaves <> num_leaves s) /\
  (length leaves <> num_leaves s ->
   unflatten s leaves = ValueError (length leaves) (num_leaves s) s) /\
  (length leaves = num_leaves s ->
   exists t, unflatten s leaves = Ok t).
Proof.
  assert (Hne : length leaves <> num_leaves s ->
                unflatten s leaves =
                  ValueError (length leaves) (num_leaves s) s)
    by apply unflatten_mismatch.
  assert (Heq : length leaves = num_leaves s ->
                exists t, unflatten s leaves = Ok t)
    by now apply unflatten_constructed.
  split; [|split; assumption].
  split.
  - intros Herr Hlen. destruct (Heq Hlen) as [t Ht].
    rewrite Ht in Herr. discriminate.
  - intros Hlen. now rewrite (Hne Hlen).
Qed.

Lemma unflatten_length_check_witness :
  constructed tuple_of_empty_list_spec /\
  unflatten tuple_of_empty_list_spec [PyNone] =
    ValueError 1 0 tuple_of_empty_list_spec.
Proof.
  assert (H : constructed tuple_of_empty_list_spec)
    by apply (spec_of_constructed example_registry None tuple_of_empty_list).
  split; [exact H|].
  apply (unflatten_length_check H [PyNone]). simpl. lia.
Defined.

(** ** C5: the type check of [tree_unflatten] *)

(** C5.  Whatever the leaves are, [tree_unflatten] raises the type error
    when its second argument is not a [PyTreeSpec], and otherwise returns
    what the spec's own [unflatten] returns on the leaves. *)
Theorem tree_unflatten_type_check (leaves : list PyTree) :
  (forall v, tree_unflatten leaves (OtherValue v) = TypeError) /\
  (forall treespec,
      tree_unflatten leaves (SpecValue treespec) =
        unflatten treespec leaves).
Proof. split; reflexivity. Qed.

(** ** C6: leaf classification *)

(** C6.  For a constructed spec, [is_leaf] holds exactly when
    [num_nodes = 1] and [num_leaves = 1], and exactly when the node type is
    absent.  A spec with a node type is never a leaf: with no children it
    has [num_nodes = 1] and [num_leaves = 0], with children it has at least
    two nodes.  The spec that [tree_structure] returns is a leaf exactly
    when the traversal stops at the root, so it is not a leaf for any
    registered container that is decomposed. *)
Theorem is_leaf_classification
  (registry_get : PyType -> option PyTreeNodeRegistryEntry)
  (P : option (PyTree -> bool)) (tree : PyTree)
  (s : PyTreeSpec) (Hs : constructed s) :
  (is_leaf s = true <-> num_nodes s = 1 /\ num_leaves s = 1) /\
  (is_leaf s = true <-> _type s = None) /\
  (_type s <> None -> is_leaf s = false) /\
  (_type s <> None -> _children s = [] ->
   num_nodes s = 1 /\ num_leaves s = 0) /\
  (_type s <> None -> _children s <> [] -> 2 <= num_nodes s) /\
  (exists treespec,
      tree_structure registry_get tree P = Ok treespec /\
      constructed treespec /\
      is_leaf treespec = stops_at registry_get P tree).
Proof.
  pose proof (constructed_is_leaf Hs) as Hleaf.
  split; [|split; [|split; [|split; [|split]]]].
  - unfold is_leaf. now rewrite andb_true_iff, !Nat.eqb_eq.
  - exact Hleaf.
  - intros Hty. destruct (is_leaf s); [|reflexivity].
    destruct Hty. now apply Hleaf.
  - intros Hty Hnil. destruct (_type s) as [ty|] eqn:Hty'; [|contradiction].
    destruct (constructed_internal Hs Hty') as (_ & _ & Hn & Hl & _).
    rewrite Hnil in *. simpl in *. lia.
  - intros Hty Hcs. destruct (_type s) as [ty|] eqn:Hty'; [|contradiction].
    destruct (constructed_internal Hs Hty') as (_ & _ & Hn & _ & _).
    pose proof (list_sum_num_nodes_pos (constructed_children Hs)) as Hpos.
    destruct (_children s) as [|c cs]; [contradiction|]. simpl in *. lia.
  - exists (spec_of registry_get P tree).
    pose proof (spec_of_constructed registry_get P tree) as Hc.
    split; [apply tree_structure_reference|]. split; [exact Hc|].
    pose proof (constructed_is_leaf Hc) as Hl.
    rewrite spec_of_type in Hl.
    destruct (stops_at registry_get P tree).
    + now apply Hl.
    + destruct (is_leaf (spec_of registry_get P tree)); [|reflexivity].
      destruct Hl as [Hl _]. discriminate (Hl eq_refl).
Qed.

Lemma is_leaf_classification_witness :
  constructed tuple_of_empty_list_spec /\
  is_leaf tuple_of_empty_list_spec = false.
Proof.
  assert (H : constructed tuple_of_empty_list_spec)
    by apply (spec_of_constructed example_registry None tuple_of_empty_list).
  split; [exact H|].
  apply (is_leaf_classification example_registry None scenario_A H).
  discriminate.
Defined.

(** ** C7: the base case *)

(** C7.  When the value is [None], or the leaf predicate flags it, or its
    class has no entry in the registry, [tree_flatten] returns the one-element
    list holding the value together with the canonical leaf spec (one leaf,
    no node type), and [tree_iter] yields the value and nothing else. *)
Theorem flatten_of_a_leaf
  (registry_get : PyType -> option PyTreeNodeRegistryEntry)
  (P : option (PyTree -> bool)) (v : PyTree) (fuel : nat)
  (Hv : v = PyNone \/
        (exists p, P = Some p /\ p v = true) \/
        registry_get (type_of v) = None)
  (Hfuel : 2 <= fuel) :
  tree_flatten registry_get v P = Ok ([v], leafspec) /\
  num_leaves leafspec = 1 /\
  _type leafspec = None /\
  tree_iter registry_get fuel v P = Some [v].
Proof.
  assert (Hstop : flagged P v = true \/ registry_get (type_of v) = None).
  { destruct Hv as [-> | [(p & -> & Hp) | Hreg]].
    - now left.
    - left. unfold flagged. rewrite Hp. apply orb_true_r.
    - now right. }
  split; [|split; [reflexivity|split; [reflexivity|]]].
  - unfold tree_flatten. rewrite helper_eq.
    destruct Hstop as [-> | Hreg]; [reflexivity|].
    destruct (flagged P v); [reflexivity|]. now rewrite Hreg.
  - destruct fuel as [|[|fuel]]; try lia.
    unfold tree_iter. cbn [tree_iter_from]. unfold tree_iter_step.
    change [v] with ([] ++ [v]). rewrite pop_snoc.
    destruct Hstop as [-> | Hreg]; [reflexivity|].
    destruct (flagged P v); [reflexivity|]. now rewrite Hreg.
Qed.

Lemma flatten_of_a_leaf_witness :
  (example_registry (type_of scenario_D) = None /\ 2 <= 2) /\
  tree_flatten example_registry scenario_D None =
    Ok ([scenario_D], leafspec) /\
  tree_iter example_registry 2 scenario_D None = Some [scenario_D].
Proof.
  assert (Hreg : example_registry (type_of scenario_D) = None)
    by reflexivity.
  assert (Hfuel : 2 <= 2) by lia.
  pose proof (@flatten_of_a_leaf example_registry None scenario_D 2
                (or_intror (or_intror Hreg)) Hfuel)
    as (Hflat & _ & _ & Hiter).
  split; [split; [exact Hreg|exact Hfuel]|].
  split; [exact Hflat|exact Hiter].
Defined.

(** ** C8: leaf specs and totality *)

(** C8.  A constructed spec without node type holds no reconstruction
    function, and [unflatten] on it and a one-element list returns that
    element.  Every operation returns: [tree_iter] and [tree_leaves] as soon
    as the fuel exceeds the size of the tree, [tree_flatten] and
    [tree_structure] on every tree, [unflatten] on every constructed spec
    (with a tree or with the length-mismatch error).  The only list that is
    written to, the local [leaves] of [tree_flatten], is only appended to. *)
Theorem leaf_unflatten_and_totality
  (registry_get : PyType -> option PyTreeNodeRegistryEntry)
  (P : option (PyTree -> bool)) (tree : PyTree) (fuel : nat)
  (s : PyTreeSpec) (x : PyTree)
  (Hs : constructed s) (Hleaf : _type s = None)
  (Hfuel : tree_size tree < fuel) :
  (_unflatten_func s = None /\ unflatten s [x] = Ok x) /\
  (exists l, tree_iter registry_get fuel tree P = Some l) /\
  (exists l, tree_leaves registry_get fuel tree P = Some l) /\
  (exists l treespec, tree_flatten registry_get tree P = Ok (l, treespec)) /\
  (exists treespec, tree_structure registry_get tree P = Ok treespec) /\
  (forall s' leaves,
      constructed s' ->
      (exists t, unflatten s' leaves = Ok t) \/
      unflatten s' leaves = ValueError (length leaves) (num_leaves s') s') /\
  (forall leaves0,
      exists treespec new,
        helper registry_get P tree leaves0 = Ok (treespec, leaves0 ++ new)).
Proof.
  split; [|split; [|split; [|split; [|split; [|split]]]]].
  - rewrite (constructed_leaf Hs Hleaf). split; reflexivity.
  - eexists. apply (@tree_leaves_reference registry_get P fuel tree Hfuel).
  - eexists. apply (@tree_leaves_reference registry_get P fuel tree Hfuel).
  - do 2 eexists. apply tree_flatten_reference.
  - eexists. apply tree_structure_reference.
  - intros s' leaves Hs'.
    destruct (Nat.eq_dec (length leaves) (num_leaves s')) as [Heq|Hne].
    + left. now apply unflatten_constructed.
    + right. now apply unflatten_mismatch.
  - intros leaves0. do 2 eexists. apply helper_reference.
Qed.

Lemma leaf_unflatten_and_totality_witness :
  (constructed leafspec /\ _type leafspec = None /\
   tree_size scenario_A < 6) /\
  unflatten leafspec [PyInt 5] = Ok (PyInt 5).
Proof.
  assert (Hfuel : tree_size scenario_A < 6) by (vm_compute; lia).
  split; [split; [exact constructed_leafspec|split; [reflexivity|exact Hfuel]]|].
  apply (@leaf_unflatten_and_totality example_registry None scenario_A 6
           leafspec (PyInt 5) constructed_leafspec eq_refl Hfuel).
Defined.

(** ** C9: specs without leaves *)

Lemma slice_nil (A : Type) start end_ : slice (@nil A) start end_ = [].
Proof. unfold slice. now rewrite skipn_nil, firstn_nil. Qed.

Lemma runs_of_nil visit cs :
  forall offset ts,
    Forall2 (fun p t => visit (fst p) (snd p) = Ok t)
      (combine cs (child_runs [] cs offset)) ts ->
    Forall2 (fun c (t : PyTree) => visit c (@nil PyTree) = @Ok PyTreeSpec _ t)
      cs ts.
Proof.
  induction cs as [|c cs IH]; intros offset ts H; simpl in H.
  - inversion H. constructor.
  - inversion H as [|p t ps ts' Hpt Hrest]; subst. simpl in Hpt.
    rewrite slice_nil in Hpt. constructor; [exact Hpt|].
    now apply (IH (offset + num_leaves c)).
Qed.

(** C9, as stated, fails: the spec of [([],)] is constructed, has a node
    type and no leaves, yet [unflatten] on the empty list does not return
    the reconstruction function applied to the empty list of subtrees: it
    applies it to the one rebuilt child. *)
Lemma unflatten_without_leaves_counterexample :
  constructed tuple_of_empty_list_spec /\
  _type tuple_of_empty_list_spec <> None /\
  num_leaves tuple_of_empty_list_spec = 0 /\
  exists g,
    _unflatten_func tuple_of_empty_list_spec = Some g /\
    unflatten tuple_of_empty_list_spec [] = Ok (g PyNone [py_list []]) /\
    unflatten tuple_of_empty_list_spec [] <>
      Ok (g (_metadata tuple_of_empty_list_spec) []).
Proof.
  split.
  { apply (spec_of_constructed example_registry None tuple_of_empty_list). }
  split; [discriminate|]. split; [reflexivity|].
  eexists. split; [reflexivity|]. split; [reflexivity|]. discriminate.
Qed.

(** C9, amended.  A constructed spec with a node type and [num_leaves = 0]
    is not a leaf, and [unflatten] on the empty list succeeds: every child is
    rebuilt from the empty list, in order, and the result is the
    reconstruction function applied to the metadata and to the list of the
    rebuilt children; that list is empty when the spec has no children. *)
Theorem unflatten_without_leaves (s : PyTreeSpec)
  (Hs : constructed s) (Hty : _type s <> None) (Hzero : num_leaves s = 0) :
  is_leaf s = false /\
  exists g subtrees,
    _unflatten_func s = Some g /\
    Forall2 (fun c t => unflatten c [] = Ok t) (_children s) subtrees /\
    unflatten s [] = Ok (g (_metadata s) subtrees) /\
    (_children s = [] -> subtrees = []).
Proof.
  assert (Hleaf : is_leaf s = false).
  { unfold is_leaf. rewrite Hzero. apply andb_false_r. }
  split; [exact Hleaf|].
  destruct (_type s) as [ty|] eqn:Hty'; [|contradiction].
  destruct (constructed_internal Hs Hty') as (g & Hg & _ & Hsum & _).
  assert (Hcs : Forall (fun c => forall l, length l = num_leaves c ->
                                           exists t, unflatten c l = Ok t)
                  (_children s)).
  { eapply Forall_impl; [|apply (constructed_children Hs)].
    intros c Hc l Hl. now apply unflatten_constructed. }
  destruct (@for_each_subspec_total unflatten [] (_children s) Hcs 0 [])
    as (ts & Hts & Hall); [simpl; lia|].
  exists g, ts. split; [exact Hg|].
  apply runs_of_nil in Hall. split; [exact Hall|]. split.
  - rewrite unflatten_eq, Hzero, Hleaf, Hts, Hg. reflexivity.
  - intros Hnil. rewrite Hnil in Hall. now inversion Hall.
Qed.

Lemma unflatten_without_leaves_witness :
  (constructed tuple_of_empty_list_spec /\
   _type tuple_of_empty_list_spec <> None /\
   num_leaves tuple_of_empty_list_spec = 0) /\
  is_leaf tuple_of_empty_list_spec = false.
Proof.
  assert (H : constructed tuple_of_empty_list_spec)
    by apply (spec_of_constructed example_registry None tuple_of_empty_list).
  assert (Hty : _type tuple_of_empty_list_spec <> None) by discriminate.
  assert (Hz : num_leaves tuple_of_empty_list_spec = 0) by reflexivity.
  split; [split; [exact H|split; [exact Hty|exact Hz]]|].
  apply (unflatten_without_leaves H Hty Hz).
Defined.

(** ** C10: the introspection accessors *)

(** Subscripting a sequence with a Python int, by range of the index. *)
Lemma getitem_range (A : Type) (l : list A) (index : Z) :
  ((0 <= index < Z.of_nat (length l))%Z ->
   exists x, nth_error l (Z.to_nat index) = Some x /\
             getitem l index = Some x) /\
  ((- Z.of_nat (length l) <= index < 0)%Z ->
   getitem l index = getitem l (index + Z.of_nat (length l))) /\
  ((index < - Z.of_nat (length l) \/ Z.of_nat (length l) <= index)%Z ->
   getitem l index = None).
Proof.
  unfold getitem. split; [|split].
  - intros Hrange.
    destruct (Z.ltb_spec index 0) as [Hneg|_]; [lia|].
    destruct (nth_error l (Z.to_nat index)) as [x|] eqn:Hnth.
    + now exists x.
    + apply nth_error_None in Hnth. lia.
  - intros Hrange.
    destruct (Z.ltb_spec index 0) as [_|Hpos]; [|lia].
    destruct (Z.ltb_spec (index + Z.of_nat (length l)) 0) as [Hlow|_];
      [lia|].
    reflexivity.
  - intros [Hlow | Hhigh].
    + destruct (Z.ltb_spec index 0) as [_|Hpos]; [|lia].
      destruct (Z.ltb_spec (index + Z.of_nat (length l)) 0) as [_|Hge];
        [reflexivity|lia].
    + destruct (Z.ltb_spec index 0) as [Hneg|_]; [lia|].
      apply nth_error_None. lia.
Qed.

Section EntriesFacts.

Variable registry_get : PyType -> option PyTreeNodeRegistryEntry.
Variable P : option (PyTree -> bool).

(** Every spec inside the spec of a tree is the spec of an object of that
    tree. *)
Lemma subspec_spec_of tree :
  forall s,
    subspec s (spec_of registry_get P tree) ->
    exists t, occurs_in t tree /\ s = spec_of registry_get P t.
Proof.
  assert (Hstep : forall node,
             Forall (fun c => forall s,
                         subspec s (spec_of registry_get P c) ->
                         exists t, occurs_in t c /\
                                   s = spec_of registry_get P t)
               (children_of node) ->
             forall s,
               subspec s (spec_of registry_get P node) ->
               exists t, occurs_in t node /\ s = spec_of registry_get P t).
  { intros node IH s Hsub.
    inversion Hsub as [Heq | big c Hin Hbelow Heq].
    { exists node. split; [apply occurs_here|reflexivity]. }
    rewrite spec_of_children in Hin.
    destruct (stops_at registry_get P node); [contradiction|].
    apply in_map_iff in Hin as (t & <- & Hin).
    rewrite Forall_forall in IH.
    destruct (IH t Hin s Hbelow) as (t' & Hocc & Heq').
    exists t'. split; [|exact Heq']. now apply (occurs_below _ Hin). }
  induction tree as [| n | str | ty state items IH] using PyTree_items_ind;
    apply Hstep; cbn [children_of]; [apply Forall_nil .. | exact IH].
Qed.

(** A spec with a node type that was taken from an object stores the
    entries that the registry gave for that object. *)
Lemma spec_of_entries node :
  _type (spec_of registry_get P node) <> None ->
  exists e,
    flagged P node = false /\
    registry_get (type_of node) = Some e /\
    _entries (spec_of registry_get P node) = Some (flatten_entries e node).
Proof.
  rewrite spec_of_eq. destruct (flagged P node); [now intros []|].
  destruct (registry_get (type_of node)) as [e|]; [|now intros []].
  intros _. now exists e.
Qed.

End EntriesFacts.

(** C10, as stated, fails on a spec with a node type: the constructor call
    [PyTreeSpec((), tuple, None, None, f)] succeeds, since [__post_init__]
    checks the entries of a leaf spec only, and on the spec it returns
    [entries()] and [entry(0)] raise as they do on a leaf spec. *)
Lemma entries_of_specs_counterexample :
  post_init [] (Some "tuple") PyNone None
    (Some (unflatten_func (sequence_entry "tuple"))) =
    Ok internal_spec_without_entries /\
  constructed internal_spec_without_entries /\
  _type internal_spec_without_entries <> None /\
  entries internal_spec_without_entries = TypeError /\
  entry internal_spec_without_entries 0 = TypeError.
Proof.
  split; [reflexivity|]. split.
  { apply (@constructed_by [] (Some "tuple") PyNone None
             (Some (unflatten_func (sequence_entry "tuple"))));
      [apply Forall_nil|reflexivity]. }
  split; [discriminate|]. split; reflexivity.
Qed.

(** C10, amended.  The canonical leaf spec is built with [None] for its
    entries, so on every constructed spec without node type [entries()] and
    [entry(i)] raise.  Every spec with a node type that occurs, at any
    depth, in the result of [tree_structure] is the spec of an object of the
    tree that is decomposed, and [entries()] returns the entries the
    registry gave for that object; [entry(i)] returns the [i]-th of them for
    [0 <= i < len], the same as [entry(i + len)] for [-len <= i < 0], and
    raises [IndexError] for any other [i].  The constructor does not check
    the entries of a spec with a node type: one that was constructed with
    [None] for its entries raises like a leaf spec. *)
Theorem entries_of_specs
  (registry_get : PyType -> option PyTreeNodeRegistryEntry)
  (P : option (PyTree -> bool)) (tree : PyTree)
  (top s leaf : PyTreeSpec)
  (Htop : tree_structure registry_get tree P = Ok top)
  (Hsub : subspec s top)
  (Hleaf : constructed leaf) (Hty : _type leaf = None) :
  (post_init [] None PyNone None None = Ok leafspec /\
   _entries leafspec = None) /\
  (entries leaf = TypeError /\ forall i, entry leaf i = TypeError) /\
  (_type s = None ->
   entries s = TypeError /\ forall i, entry s i = TypeError) /\
  (_type s <> None ->
   exists node e,
     occurs_in node tree /\
     flagged P node = false /\
     registry_get (type_of node) = Some e /\
     tree_structure registry_get node P = Ok s /\
     entries s = Ok (flatten_entries e node) /\
     let es := flatten_entries e node in
     let n := Z.of_nat (length es) in
     (forall i, (0 <= i < n)%Z ->
                exists x, nth_error es (Z.to_nat i) = Some x /\
                          entry s i = Ok x) /\
     (forall i, (- n <= i < 0)%Z -> entry s i = entry s (i + n)) /\
     (forall i, (i < - n \/ n <= i)%Z -> entry s i = IndexError)) /\
  (forall c,
      constructed c -> _type c <> None -> _entries c = None ->
      entries c = TypeError /\ forall i, entry c i = TypeError).
Proof.
  rewrite tree_structure_reference in Htop. injection Htop as <-.
  destruct (@subspec_spec_of _ _ _ _ Hsub) as (node & Hocc & ->).
  split; [split; reflexivity|]. split; [|split; [|split]].
  - rewrite (constructed_leaf Hleaf Hty). split; reflexivity.
  - intros Hnone.
    rewrite (constructed_leaf (spec_of_constructed _ _ _) Hnone).
    split; reflexivity.
  - intros Hsome.
    destruct (@spec_of_entries _ _ _ Hsome) as (e & Hflag & Hreg & Hes).
    exists node, e. split; [exact Hocc|]. split; [exact Hflag|].
    split; [exact Hreg|]. split; [apply tree_structure_reference|].
    unfold entries, entry. rewrite Hes. split; [reflexivity|].
    cbv zeta. split; [|split]; intros i Hi.
    + destruct (getitem_range (flatten_entries e node) i)
        as (Hin & _ & _).
      destruct (Hin Hi) as (x & Hnth & Hget).
      exists x. now rewrite Hget.
    + destruct (getitem_range (flatten_entries e node) i)
        as (_ & Hneg & _).
      now rewrite (Hneg Hi).
    + destruct (getitem_range (flatten_entries e node) i)
        as (_ & _ & Hout).
      now rewrite (Hout Hi).
  - intros c _ _ Hnone. unfold entries, entry. rewrite Hnone.
    split; reflexivity.
Qed.

Lemma entries_of_specs_witness :
  (tree_structure example_registry scenario_A None = Ok scenario_A_spec /\
   subspec scenario_A_spec scenario_A_spec /\
   constructed leafspec /\ _type leafspec = None) /\
  entries leafspec = TypeError /\
  exists node e,
    example_registry (type_of node) = Some e /\
    entries scenario_A_spec = Ok (flatten_entries e node) /\
    entry scenario_A_spec (-1) = Ok (PyInt 1).
Proof.
  assert (Htop : tree_structure example_registry scenario_A None =
                   Ok scenario_A_spec) by reflexivity.
  pose proof (subspec_here scenario_A_spec) as Hsub.
  pose proof (@entries_of_specs example_registry None scenario_A
                scenario_A_spec scenario_A_spec leafspec
                Htop Hsub constructed_leafspec eq_refl)
    as (_ & (Hl & _) & _ & Hin & _).
  split; [split; [exact Htop|split; [exact Hsub|
            split; [exact constructed_leafspec|reflexivity]]]|].
  split; [exact Hl|].
  destruct Hin as (node & e & _ & _ & Hreg & _ & Hes & _); [discriminate|].
  exists node, e. split; [exact Hreg|]. split; [exact Hes|reflexivity].
Defined.

(** * Further properties of the traversals *)

Section TraversalFacts.

Variable registry_get : PyType -> option PyTreeNodeRegistryEntry.
Variable P : option (PyTree -> bool).

Local Abbreviation spec := (spec_of registry_get P).
Local Abbreviation leaves := (leaves_of registry_get P).

Lemma spec_of_num_nodes tree :
  num_nodes (spec tree) =
    if stops_at registry_get P tree then 1
    else S (list_sum (map (fun c => num_nodes (spec c)) (children_of tree))).
Proof.
  rewrite spec_of_eq. unfold stops_at.
  destruct (flagged P tree); [reflexivity|].
  destruct (registry_get (type_of tree)); [|reflexivity].
  cbn [orb num_nodes]. now rewrite sum_of_eq, map_map.
Qed.

Lemma list_sum_app l1 l2 : list_sum (l1 ++ l2) = list_sum l1 + list_sum l2.
Proof. induction l1 as [|x l1 IH]; simpl; [reflexivity|]. lia. Qed.

(** The loop takes one turn for every spec node of the stacked trees and
    one more to find the stack empty. *)
Lemma tree_iter_from_turns fuel :
  forall top_first,
    tree_iter_from registry_get fuel P (rev top_first) =
      if list_sum (map (fun c => num_nodes (spec c)) top_first) <? fuel
      then Some (flat_map leaves top_first)
      else None.
Proof.
  induction fuel as [|fuel IH]; intros top_first.
  { reflexivity. }
  destruct top_first as [|curr rest]; [reflexivity|].
  cbn [rev tree_iter_from flat_map map list_sum]. unfold tree_iter_step.
  rewrite pop_snoc, leaves_of_eq, spec_of_num_nodes. unfold stops_at.
  assert (Hcons : forall x l, list_sum (x :: l) = x + list_sum l)
    by reflexivity.
  assert (Hltb : forall a b, (S a <? S b) = (a <? b)) by reflexivity.
  destruct (flagged P curr); cbn [orb].
  - rewrite IH, Hcons. cbn [Nat.add]. rewrite Hltb.
    now destruct (_ <? fuel).
  - destruct (registry_get (type_of curr)) as [e|].
    + cbn [tree_flatten_one_level].
      rewrite <- rev_app_distr, IH, map_app, list_sum_app, flat_map_app.
      rewrite Hcons. cbn [Nat.add]. rewrite Hltb.
      now destruct (_ <? fuel).
    + rewrite IH, Hcons. cbn [Nat.add]. rewrite Hltb.
      now destruct (_ <? fuel).
Qed.

Lemma tree_iter_turns fuel tree :
  tree_iter registry_get fuel tree P =
    if num_nodes (spec tree) <? fuel then Some (leaves tree) else None.
Proof.
  unfold tree_iter. change [tree] with (rev [tree]).
  rewrite tree_iter_from_turns. cbn [map flat_map].
  change (list_sum [num_nodes (spec tree)])
    with (num_nodes (spec tree) + 0).
  now rewrite Nat.add_0_r, app_nil_r.
Qed.

Lemma spec_of_num_nodes_le tree : num_nodes (spec tree) <= tree_size tree.
Proof.
  assert (Hstep : forall node,
             Forall (fun c => num_nodes (spec c) <= tree_size c)
               (children_of node) ->
             num_nodes (spec node) <= tree_size node).
  { intros node IH. rewrite spec_of_num_nodes, tree_size_children.
    destruct (stops_at registry_get P node); [lia|].
    apply le_n_S. induction IH as [|c cs Hc _ IHcs]; simpl; lia. }
  induction tree as [| n | s | ty state items IH] using PyTree_items_ind;
    apply Hstep; cbn [children_of]; [apply Forall_nil .. | exact IH].
Qed.

(** Everything in the leaf list is a node at which the traversal stops. *)
Lemma leaves_of_stop tree :
  Forall (fun x => stops_at registry_get P x = true) (leaves tree).
Proof.
  induction tree as [| n | s | ty state items IH] using PyTree_items_ind;
    rewrite leaves_of_eq;
    destruct (stops_at registry_get P _) eqn:Hstop;
    cbn [children_of flat_map]; try (constructor; [exact Hstop|]);
    try apply Forall_nil.
  apply Forall_flat_map. exact IH.
Qed.

Lemma leaves_of_a_stop x :
  stops_at registry_get P x = true -> leaves x = [x].
Proof. intros H. now rewrite leaves_of_eq, H. Qed.

Lemma spec_of_a_stop x :
  stops_at registry_get P x = true -> spec x = leafspec.
Proof.
  intros H. rewrite spec_of_eq. unfold stops_at in H.
  destruct (flagged P x); [reflexivity|].
  destruct (registry_get (type_of x)); [discriminate|reflexivity].
Qed.

End TraversalFacts.

(** X1.  The leaf count stored in the spec that [tree_flatten] returns is
    the length of the leaf list it returns with it. *)
Theorem tree_flatten_num_leaves
  (registry_get : PyType -> option PyTreeNodeRegistryEntry)
  (tree : PyTree) (P : option (PyTree -> bool)) :
  exists leaves treespec,
    tree_flatten registry_get tree P = Ok (leaves, treespec) /\
    num_leaves treespec = length leaves.
Proof.
  do 2 eexists. split; [apply tree_flatten_reference|].
  apply spec_of_num_leaves.
Qed.

(** X2.  The loop of [tree_iter] pops exactly [num_nodes] objects, where
    [num_nodes] is the count stored in the spec of the tree: the generator
    is exhausted with the leaf list of [tree_flatten] when the fuel exceeds
    [num_nodes], and is still running when the fuel is [num_nodes] or less.
    That count is at most the number of objects in the tree. *)
Theorem tree_iter_pops_num_nodes
  (registry_get : PyType -> option PyTreeNodeRegistryEntry)
  (tree : PyTree) (P : option (PyTree -> bool)) (fuel : nat) :
  exists leaves treespec,
    tree_flatten registry_get tree P = Ok (leaves, treespec) /\
    tree_iter registry_get fuel tree P =
      (if num_nodes treespec <? fuel then Some leaves else None) /\
    num_nodes treespec <= tree_size tree.
Proof.
  do 2 eexists. split; [apply tree_flatten_reference|]. split.
  - apply tree_iter_turns.
  - apply spec_of_num_nodes_le.
Qed.

(** X3.  Every element that [tree_leaves] returns is [None], or flagged by
    the leaf predicate, or of a class without registry entry; flattening it
    again gives the element alone with the canonical leaf spec. *)
Theorem tree_leaves_yields_leaves
  (registry_get : PyType -> option PyTreeNodeRegistryEntry)
  (tree : PyTree) (P : option (PyTree -> bool)) (fuel : nat)
  (yielded : list PyTree)
  (Hrun : tree_leaves registry_get fuel tree P = Some yielded) :
  Forall (fun x =>
            (is_None x = true \/
             (exists p, P = Some p /\ p x = true) \/
             registry_get (type_of x) = None) /\
            tree_flatten registry_get x P = Ok ([x], leafspec))
    yielded.
Proof.
  unfold tree_leaves in Hrun. rewrite tree_iter_turns in Hrun.
  destruct (_ <? _); [|discriminate]. injection Hrun as <-.
  eapply Forall_impl; [|apply leaves_of_stop].
  intros x Hstop. split.
  - unfold stops_at, flagged in Hstop.
    destruct (is_None x); [now left|]. right.
    destruct P as [p|]; cbn [orb] in Hstop.
    + destruct (p x) eqn:Hp; [left; now exists p|]. right.
      cbn [orb] in Hstop. now destruct (registry_get (type_of x)).
    + right. now destruct (registry_get (type_of x)).
  - rewrite tree_flatten_reference.
    now rewrite leaves_of_a_stop, spec_of_a_stop.
Qed.

Lemma tree_leaves_yields_leaves_witness :
  tree_leaves example_registry 6 scenario_A None =
    Some [PyInt 1; PyInt 2; PyInt 3] /\
  Forall (fun x => tree_flatten example_registry x None = Ok ([x], leafspec))
    [PyInt 1; PyInt 2; PyInt 3].
Proof.
  assert (Hrun : tree_leaves example_registry 6 scenario_A None =
                   Some [PyInt 1; PyInt 2; PyInt 3]) by reflexivity.
  split; [exact Hrun|].
  eapply Forall_impl;
    [|apply (@tree_leaves_yields_leaves example_registry scenario_A None 6
               [PyInt 1; PyInt 2; PyInt 3] Hrun)].
  intros x [_ Hx]. exact Hx.
Defined.

(** A leaf predicate only makes the traversal stop earlier. *)
Lemma leaves_of_coarsen
  (registry_get : PyType -> option PyTreeNodeRegistryEntry)
  (p : PyTree -> bool) (tree : PyTree) :
  flat_map (leaves_of registry_get None)
    (leaves_of registry_get (Some p) tree) =
    leaves_of registry_get None tree.
Proof.
  assert (Hstep : forall node,
             Forall (fun c =>
                       flat_map (leaves_of registry_get None)
                         (leaves_of registry_get (Some p) c) =
                         leaves_of registry_get None c)
               (children_of node) ->
             flat_map (leaves_of registry_get None)
               (leaves_of registry_get (Some p) node) =
               leaves_of registry_get None node).
  { intros node IH. rewrite (leaves_of_eq registry_get (Some p) node).
    destruct (stops_at registry_get (Some p) node) eqn:Hstop.
    - cbn [flat_map]. apply app_nil_r.
    - rewrite (leaves_of_eq registry_get None node).
      assert (Hnone : stops_at registry_get None node = false).
      { unfold stops_at, flagged in *.
        destruct (is_None node); [discriminate|]. cbn [orb] in *.
        destruct (p node); [discriminate|]. exact Hstop. }
      rewrite Hnone.
      induction IH as [|c cs Hc _ IHcs]; [reflexivity|].
      cbn [flat_map]. now rewrite flat_map_app, Hc, IHcs. }
  induction tree as [| n | s | ty state items IH] using PyTree_items_ind;
    apply Hstep; cbn [children_of]; [apply Forall_nil .. | exact IH].
Qed.

(** X4.  The leaves found without predicate are the leaves found with a
    predicate, each flattened once more without predicate and the results
    concatenated in order. *)
Theorem tree_flatten_predicate_coarsens
  (registry_get : PyType -> option PyTreeNodeRegistryEntry)
  (tree : PyTree) (p : PyTree -> bool) :
  exists coarse coarse_spec fine fine_spec parts,
    tree_flatten registry_get tree (Some p) = Ok (coarse, coarse_spec) /\
    tree_flatten registry_get tree None = Ok (fine, fine_spec) /\
    Forall2 (fun x part =>
               exists part_spec,
                 tree_flatten registry_get x None = Ok (part, part_spec))
      coarse parts /\
    concat parts = fine.
Proof.
  exists (leaves_of registry_get (Some p) tree),
    (spec_of registry_get (Some p) tree),
    (leaves_of registry_get None tree), (spec_of registry_get None tree),
    (map (leaves_of registry_get None)
       (leaves_of registry_get (Some p) tree)).
  split; [apply tree_flatten_reference|].
  split; [apply tree_flatten_reference|]. split.
  - induction (leaves_of registry_get (Some p) tree) as [|x l IH];
      constructor; [|exact IH].
    eexists. apply tree_flatten_reference.
  - rewrite <- flat_map_concat_map. apply leaves_of_coarsen.
Qed.

(** Induction over objects through [children_of]. *)
Lemma PyTree_children_ind (Q : PyTree -> Prop) :
  (forall node, Forall Q (children_of node) -> Q node) ->
  forall node, Q node.
Proof.
  intros Hstep node.
  induction node as [| n | s | ty state items IH] using PyTree_items_ind;
    apply Hstep; cbn [children_of]; [apply Forall_nil .. | exact IH].
Qed.

(** X5.  For an object that is not [None], not flagged by the predicate and
    of a registered class, [tree_flatten] returns the concatenation of the
    leaf lists of its children, in child order, and a spec whose children
    are the specs of its children; the spec stores the class of the object,
    the metadata and the entries of the registry entry, and counts as many
    children as the object holds. *)
Theorem tree_flatten_of_a_container
  (registry_get : PyType -> option PyTreeNodeRegistryEntry)
  (P : option (PyTree -> bool)) (node : PyTree)
  (e : PyTreeNodeRegistryEntry)
  (Hflag : flagged P node = false)
  (Hreg : registry_get (type_of node) = Some e) :
  exists results treespec,
    Forall2 (fun child r => tree_flatten registry_get child P = Ok r)
      (children_of node) results /\
    tree_flatten registry_get node P =
      Ok (concat (map fst results), treespec) /\
    _children treespec = map snd results /\
    _type treespec = Some (type_of node) /\
    _metadata treespec = flatten_metadata e node /\
    entries treespec = Ok (flatten_entries e node) /\
    num_children treespec = length (children_of node).
Proof.
  exists (map (fun c => (leaves_of registry_get P c, spec_of registry_get P c))
            (children_of node)),
    (spec_of registry_get P node).
  split.
  { induction (children_of node) as [|c cs IH]; constructor; [|exact IH].
    apply tree_flatten_reference. }
  rewrite tree_flatten_reference, leaves_of_eq, spec_of_eq.
  unfold stops_at. rewrite Hflag, Hreg. cbn [orb].
  rewrite !map_map. cbn [fst snd].
  rewrite <- flat_map_concat_map.
  repeat split. cbn [num_children]. apply length_map.
Qed.

Lemma tree_flatten_of_a_container_witness :
  (flagged None scenario_A = false /\
   example_registry (type_of scenario_A) = Some (sequence_entry "tuple")) /\
  exists results treespec,
    Forall2 (fun child r => tree_flatten example_registry child None = Ok r)
      (children_of scenario_A) results /\
    tree_flatten example_registry scenario_A None =
      Ok (concat (map fst results), treespec).
Proof.
  assert (Hflag : flagged None scenario_A = false) by reflexivity.
  assert (Hreg : example_registry (type_of scenario_A) =
                   Some (sequence_entry "tuple")) by reflexivity.
  split; [split; [exact Hflag|exact Hreg]|].
  destruct (@tree_flatten_of_a_container example_registry None scenario_A
              (sequence_entry "tuple") Hflag Hreg)
    as (results & treespec & Hall & Hflat & _).
  exists results, treespec. split; [exact Hall|exact Hflat].
Defined.

(** ** Rebuilding from other leaves *)

Lemma Forall_slice (A : Type) (Q : A -> Prop) (l : list A) start end_ :
  Forall Q l -> Forall Q (slice l start end_).
Proof.
  intros H. unfold slice.
  rewrite <- (firstn_skipn start l) in H.
  apply Forall_app in H as [_ H].
  rewrite <- (firstn_skipn (end_ - start) (skipn start l)) in H.
  now apply Forall_app in H as [H _].
Qed.

Section Rebuild.

Variable registry_get : PyType -> option PyTreeNodeRegistryEntry.
Variable P : option (PyTree -> bool).

Hypothesis Hconstructs : registry_constructs registry_get.
Hypothesis Hunflagged :
  forall ty e metadata children,
    registry_get ty = Some e ->
    flagged P (unflatten_func e metadata children) = false.

Local Abbreviation spec := (spec_of registry_get P).
Local Abbreviation leaves := (leaves_of registry_get P).
Local Abbreviation stop := (fun x => stops_at registry_get P x = true).

(** The statement proved by induction on the tree from which the spec was
    taken. *)
Local Abbreviation rebuilds_from :=
  (fun tree : PyTree =>
     forall l,
       length l = num_leaves (spec tree) ->
       Forall stop l ->
       exists t, unflatten (spec tree) l = Ok t /\ leaves t = l).

Lemma for_each_subspec_rebuild items (l : list PyTree) :
  Forall rebuilds_from items ->
  Forall stop l ->
  forall offset subtrees,
    offset + list_sum (map num_leaves (map spec items)) <= length l ->
    exists ts,
      for_each_subspec unflatten l (map spec items) offset offset subtrees =
        Ok (subtrees ++ ts) /\
      flat_map leaves ts =
        slice l offset (offset + list_sum (map num_leaves (map spec items))).
Proof.
  intros Hitems Hstop.
  induction Hitems as [|c cs Hc _ IH]; intros offset subtrees Hlen;
    cbn [map list_sum fold_right for_each_subspec] in *.
  - exists []. rewrite app_nil_r. split; [reflexivity|].
    unfold slice. now replace (offset + 0 - offset) with 0 by lia.
  - change (fold_right Nat.add 0 (map num_leaves (map spec cs)))
      with (list_sum (map num_leaves (map spec cs))) in *.
    destruct (Hc (slice l offset (offset + num_leaves (spec c))))
      as (t & Ht & Hleaves).
    { rewrite slice_length by lia. lia. }
    { now apply Forall_slice. }
    rewrite Ht. cbn [bind].
    destruct (IH (offset + num_leaves (spec c)) (subtrees ++ [t]))
      as (ts & Hts & Hrest); [lia|].
    exists (t :: ts). rewrite Hts, <- app_assoc. split; [reflexivity|].
    cbn [flat_map]. rewrite Hleaves, Hrest, Nat.add_assoc.
    apply slice_adjacent.
Qed.

Lemma rebuilds_from_all tree : rebuilds_from tree.
Proof.
  induction tree as [node IH] using PyTree_children_ind.
  intros l Hlen Hstop.
  rewrite unflatten_eq, Hlen, Nat.eqb_refl. cbn [negb].
  pose proof (constructed_is_leaf (spec_of_constructed registry_get P node))
    as Hleaf.
  rewrite spec_of_type in Hleaf.
  destruct (stops_at registry_get P node) eqn:Hnode.
  - destruct Hleaf as [_ ->]; [|reflexivity].
    rewrite spec_of_a_stop in Hlen by exact Hnode.
    destruct l as [|x [|y l]]; try discriminate.
    exists x. split; [reflexivity|].
    apply leaves_of_a_stop. now inversion Hstop.
  - destruct (is_leaf (spec node)).
    { destruct Hleaf as [Hleaf _]. discriminate (Hleaf eq_refl). }
    rewrite spec_of_eq in Hlen |- *. unfold stops_at in Hnode.
    destruct (flagged P node); [discriminate|].
    destruct (registry_get (type_of node)) as [e|] eqn:Hreg; [|discriminate].
    cbn [_children _unflatten_func _metadata num_leaves] in *.
    rewrite sum_of_eq in Hlen. cbn [Nat.add] in Hlen.
    destruct (@for_each_subspec_rebuild (children_of node) l IH Hstop 0 [])
      as (ts & Hts & Hflat); [cbn [Nat.add]; lia|].
    rewrite Hts. cbn [bind app].
    eexists. split; [reflexivity|].
    destruct (Hconstructs (flatten_metadata e node) ts Hreg) as [Hty Hcs].
    rewrite leaves_of_eq. unfold stops_at.
    rewrite (Hunflagged (flatten_metadata e node) ts Hreg), Hty, Hreg, Hcs.
    cbn [orb]. rewrite Hflat. unfold slice. cbn [Nat.add skipn].
    rewrite Nat.sub_0_r, <- Hlen. apply firstn_all.
Qed.

End Rebuild.

(** X6.  Unflattening the spec of a tree with any list of the right length
    whose elements are leaves (each is [None], flagged, or of an
    unregistered class) gives a tree whose leaf list is that list.  The
    registry is assumed to rebuild instances of the registered class that
    hold the given children, and the predicate not to flag what it
    rebuilds. *)
Theorem tree_flatten_unflatten
  (registry_get : PyType -> option PyTreeNodeRegistryEntry)
  (P : option (PyTree -> bool)) (tree : PyTree) (treespec : PyTreeSpec)
  (new_leaves : list PyTree)
  (Hconstructs : registry_constructs registry_get)
  (Hunflagged : forall ty e metadata children,
      registry_get ty = Some e ->
      flagged P (unflatten_func e metadata children) = false)
  (Hspec : tree_structure registry_get tree P = Ok treespec)
  (Hlen : length new_leaves = num_leaves treespec)
  (Hleaves : Forall (fun x => stops_at registry_get P x = true) new_leaves) :
  exists rebuilt rebuilt_spec,
    unflatten treespec new_leaves = Ok rebuilt /\
    tree_flatten registry_get rebuilt P = Ok (new_leaves, rebuilt_spec).
Proof.
  rewrite tree_structure_reference in Hspec. injection Hspec as <-.
  destruct (@rebuilds_from_all registry_get P Hconstructs Hunflagged tree
              new_leaves Hlen Hleaves) as (t & Ht & Hl).
  exists t, (spec_of registry_get P t). split; [exact Ht|].
  now rewrite tree_flatten_reference, Hl.
Qed.

Lemma example_registry_entry ty e :
  example_registry ty = Some e ->
  forall metadata children,
    unflatten_func e metadata children = PyObj ty metadata children.
Proof.
  unfold example_registry.
  destruct (String.eqb ty "tuple") eqn:Htuple.
  { apply String.eqb_eq in Htuple as ->. now intros [= <-]. }
  destruct (String.eqb ty "list") eqn:Hlist.
  { apply String.eqb_eq in Hlist as ->. now intros [= <-]. }
  destruct (String.eqb ty "dict") eqn:Hdict; [|discriminate].
  apply String.eqb_eq in Hdict as ->. now intros [= <-].
Qed.

Lemma example_registry_constructs : registry_constructs example_registry.
Proof.
  intros ty e metadata children He.
  rewrite (example_registry_entry _ He). split; reflexivity.
Qed.

Lemma tree_flatten_unflatten_witness :
  (registry_constructs example_registry /\
   tree_structure example_registry scenario_A None =
     Ok (spec_or_leafspec (tree_structure example_registry scenario_A None)) /\
   Forall (fun x => stops_at example_registry None x = true)
     [PyInt 7; PyNone; PyStr "x"]) /\
  exists rebuilt rebuilt_spec,
    unflatten (spec_or_leafspec
                 (tree_structure example_registry scenario_A None))
      [PyInt 7; PyNone; PyStr "x"] = Ok rebuilt /\
    tree_flatten example_registry rebuilt None =
      Ok ([PyInt 7; PyNone; PyStr "x"], rebuilt_spec).
Proof.
  assert (Hspec : tree_structure example_registry scenario_A None =
                    Ok (spec_or_leafspec
                          (tree_structure example_registry scenario_A None)))
    by reflexivity.
  assert (Hleaves : Forall (fun x => stops_at example_registry None x = true)
                      [PyInt 7; PyNone; PyStr "x"])
    by (repeat constructor).
  assert (Hunflagged : forall ty e metadata children,
             example_registry ty = Some e ->
             flagged None (unflatten_func e metadata children) = false).
  { intros ty e metadata children He.
    now rewrite (example_registry_entry _ He). }
  split; [split; [exact example_registry_constructs|
                  split; [exact Hspec|exact Hleaves]]|].
  assert (Hlen : length [PyInt 7; PyNone; PyStr "x"] =
                   num_leaves
                     (spec_or_leafspec
                        (tree_structure example_registry scenario_A None)))
    by reflexivity.
  apply (@tree_flatten_unflatten example_registry None scenario_A _ _
           example_registry_constructs Hunflagged Hspec Hlen Hleaves).
Defined.

(** ** Counts over the whole spec *)

Lemma list_sum_map_le (A : Type) (f g : A -> nat) (l : list A) :
  Forall (fun x => f x <= g x) l ->
  list_sum (map f l) <= list_sum (map g l).
Proof. induction 1 as [|x l Hx _ IH]; simpl; lia. Qed.

(** X7.  In a constructed spec [num_nodes] is the number of specs in it,
    itself included, at every depth, and [num_leaves] is the number of specs
    without node type in it; hence [num_leaves <= num_nodes] and
    [num_children < num_nodes]. *)
Theorem constructed_counts_whole_spec (s : PyTreeSpec)
  (Hs : constructed s) :
  num_nodes s = spec_nodes s /\
  num_leaves s = spec_leaves s /\
  num_leaves s <= num_nodes s /\
  num_children s < num_nodes s.
Proof.
  induction Hs as [cs ty metadata es f s Hcs IH Hpost]
    using constructed_children_ind.
  destruct ty as [ty|].
  - apply post_init_internal in Hpost as (g & -> & ->).
    cbn [num_nodes num_leaves num_children spec_nodes spec_leaves].
    rewrite !sum_of_eq. cbn [Nat.add].
    assert (Hn : map num_nodes cs = map spec_nodes cs).
    { apply map_ext_Forall. eapply Forall_impl; [|exact IH].
      now intros c (H & _). }
    assert (Hl : map num_leaves cs = map spec_leaves cs).
    { apply map_ext_Forall. eapply Forall_impl; [|exact IH].
      now intros c (_ & H & _). }
    assert (Hle : list_sum (map num_leaves cs) <= list_sum (map num_nodes cs)).
    { apply list_sum_map_le. eapply Forall_impl; [|exact IH].
      now intros c (_ & _ & H & _). }
    pose proof (list_sum_num_nodes_pos Hcs) as Hpos.
    rewrite <- Hn, <- Hl. repeat split; lia.
  - apply post_init_leaf in Hpost as (_ & _ & _ & _ & ->).
    cbn. repeat split; lia.
Qed.

Lemma constructed_counts_whole_spec_witness :
  constructed tuple_of_empty_list_spec /\
  num_nodes tuple_of_empty_list_spec = spec_nodes tuple_of_empty_list_spec.
Proof.
  assert (H : constructed tuple_of_empty_list_spec)
    by apply (spec_of_constructed example_registry None tuple_of_empty_list).
  split; [exact H|]. apply (constructed_counts_whole_spec H).
Defined.

(** ** Indexing the children *)

Lemma constructed_num_children s :
  constructed s -> num_children s = length (_children s).
Proof.
  intros H. destruct (_type s) as [ty|] eqn:Hty.
  - now destruct (constructed_internal H Hty) as (_ & _ & _ & _ & ->).
  - now rewrite (constructed_leaf H Hty).
Qed.

(** X8.  On a constructed spec [child(index)] succeeds exactly for
    [-num_children <= index < num_children]: a non-negative index in range
    gives the child at that position of [children()], a negative one in
    range gives the same child as [index + num_children], and every other
    index raises [IndexError]; [children()] has [num_children] elements. *)
Theorem child_index_range (s : PyTreeSpec) (Hs : constructed s)
  (index : Z) :
  length (children s) = num_children s /\
  ((0 <= index < Z.of_nat (num_children s))%Z ->
   child_int s index = child s (Z.to_nat index) /\
   exists c, nth_error (children s) (Z.to_nat index) = Some c /\
             child_int s index = Ok c) /\
  ((- Z.of_nat (num_children s) <= index < 0)%Z ->
   child_int s index = child_int s (index + Z.of_nat (num_children s))) /\
  ((index < - Z.of_nat (num_children s) \/
    Z.of_nat (num_children s) <= index)%Z ->
   child_int s index = IndexError).
Proof.
  pose proof (constructed_num_children Hs) as Hn.
  unfold children, child_int, child, getitem. rewrite <- Hn.
  split; [reflexivity|]. split; [|split].
  - intros Hrange.
    destruct (Z.ltb_spec index 0) as [Hneg|_]; [lia|].
    split; [reflexivity|].
    destruct (nth_error (_children s) (Z.to_nat index)) as [c|] eqn:Hnth.
    + now exists c.
    + apply nth_error_None in Hnth. lia.
  - intros Hrange.
    destruct (Z.ltb_spec index 0) as [_|Hpos]; [|lia].
    destruct (Z.ltb_spec (index + Z.of_nat (num_children s)) 0)
      as [Hlow|_]; [lia|].
    reflexivity.
  - intros [Hlow | Hhigh].
    + destruct (Z.ltb_spec index 0) as [_|Hpos]; [|lia].
      destruct (Z.ltb_spec (index + Z.of_nat (num_children s)) 0)
        as [_|Hge]; [reflexivity|lia].
    + destruct (Z.ltb_spec index 0) as [Hneg|_]; [lia|].
      destruct (nth_error (_children s) (Z.to_nat index)) as [c|] eqn:Hnth;
        [|reflexivity].
      assert (Hlt : Z.to_nat index < length (_children s))
        by (apply nth_error_Some; congruence).
      lia.
Qed.

Lemma child_index_range_witness :
  constructed tuple_of_empty_list_spec /\
  child_int tuple_of_empty_list_spec (-1) =
    child_int tuple_of_empty_list_spec 0 /\
  child_int tuple_of_empty_list_spec 1 = IndexError.
Proof.
  assert (H : constructed tuple_of_empty_list_spec)
    by apply (spec_of_constructed example_registry None tuple_of_empty_list).
  split; [exact H|]. split.
  - apply (child_index_range H (-1)%Z). simpl. lia.
  - apply (child_index_range H 1%Z). simpl. lia.
Defined.

(** ** Resuming the generator *)

Section NextFacts.

Variable registry_get : PyType -> option PyTreeNodeRegistryEntry.
Variable P : option (PyTree -> bool).

Local Abbreviation leaves := (leaves_of registry_get P).

(** More fuel does not change what the exhausted generator has yielded. *)
Lemma tree_iter_from_more_fuel fuel :
  forall stack yielded,
    tree_iter_from registry_get fuel P stack = Some yielded ->
    tree_iter_from registry_get (S fuel) P stack = Some yielded.
Proof.
  induction fuel as [|fuel IH]; intros stack yielded H; [discriminate|].
  cbn [tree_iter_from] in H |- *.
  destruct (tree_iter_step registry_get P stack) as [[y stack']|];
    [|exact H].
  destruct (tree_iter_from registry_get fuel P stack') as [rest|] eqn:Hrest;
    [|discriminate].
  apply IH in Hrest. cbn [tree_iter_from] in Hrest. now rewrite Hrest.
Qed.

(** [next] yields the first leaf of the stacked trees and suspends the
    generator with a stack from which the remaining leaves are yielded;
    with no leaf left it stops. *)
Lemma tree_iter_next_reference fuel :
  forall top_first,
    forest_size top_first < fuel ->
    match flat_map leaves top_first with
    | [] => tree_iter_next registry_get fuel P (rev top_first) = Some None
    | x :: rest =>
        exists stack',
          tree_iter_next registry_get fuel P (rev top_first) =
            Some (Some (x, stack')) /\
          tree_iter_from registry_get fuel P stack' = Some rest
    end.
Proof.
  induction fuel as [|fuel IH]; intros top_first Hfuel; [lia|].
  destruct top_first as [|curr rest]; [reflexivity|].
  cbn [rev tree_iter_next flat_map]. unfold tree_iter_step.
  rewrite pop_snoc, leaves_of_eq. unfold stops_at.
  cbn [forest_size fold_right] in Hfuel.
  fold (forest_size rest) in Hfuel.
  pose proof (tree_size_pos curr) as Hpos.
  assert (Hrest : tree_iter_from registry_get (S fuel) P (rev rest) =
                    Some (flat_map leaves rest))
    by (apply tree_iter_from_reference; lia).
  destruct (flagged P curr); cbn [orb app].
  - now exists (rev rest).
  - destruct (registry_get (type_of curr)) as [e|]; cbn [app].
    + cbn [tree_flatten_one_level].
      rewrite <- rev_app_distr.
      specialize (IH (children_of curr ++ rest)).
      rewrite flat_map_app in IH.
      rewrite forest_size_app, tree_size_children in *.
      destruct (flat_map leaves (children_of curr) ++ flat_map leaves rest)
        as [|x more]; [apply IH; lia|].
      destruct IH as (stack' & Hnext & Hfrom); [lia|].
      exists stack'. split; [exact Hnext|].
      now apply tree_iter_from_more_fuel.
    + now exists (rev rest).
Qed.

End NextFacts.

(** X9.  With fuel above the size of the tree, the first [next] on
    [tree_iter] yields the first element of the leaf list of
    [tree_flatten] and leaves the generator suspended so that running it to
    exhaustion yields the remaining elements; when the leaf list is empty
    the first [next] stops the iteration. *)
Theorem tree_iter_next_first_leaf
  (registry_get : PyType -> option PyTreeNodeRegistryEntry)
  (tree : PyTree) (P : option (PyTree -> bool)) (fuel : nat)
  (Hfuel : tree_size tree < fuel) :
  exists leaves treespec,
    tree_flatten registry_get tree P = Ok (leaves, treespec) /\
    match leaves with
    | [] => tree_iter_next registry_get fuel P [tree] = Some None
    | x :: rest =>
        exists stack',
          tree_iter_next registry_get fuel P [tree] =
            Some (Some (x, stack')) /\
          tree_iter_from registry_get fuel P stack' = Some rest
    end.
Proof.
  do 2 eexists. split; [apply tree_flatten_reference|].
  pose proof (@tree_iter_next_reference registry_get P fuel [tree]) as H.
  cbn [flat_map rev app forest_size fold_right] in H.
  rewrite app_nil_r in H. apply H. lia.
Qed.

Lemma tree_iter_next_first_leaf_witness :
  tree_size scenario_A < 6 /\
  exists stack',
    tree_iter_next example_registry 6 None [scenario_A] =
      Some (Some (PyInt 1, stack')) /\
    tree_iter_from example_registry 6 None stack' =
      Some [PyInt 2; PyInt 3].
Proof.
  assert (Hfuel : tree_size scenario_A < 6) by (vm_compute; lia).
  split; [exact Hfuel|].
  destruct (@tree_iter_next_first_leaf example_registry scenario_A None 6
              Hfuel) as (leaves & treespec & Hflat & Hnext).
  injection Hflat as <- _. exact Hnext.
Defined.

(** ** Where the leaves come from *)

Lemma leaves_of_occur
  (registry_get : PyType -> option PyTreeNodeRegistryEntry)
  (P : option (PyTree -> bool)) (tree : PyTree) :
  Forall (fun x => occurs_in x tree) (leaves_of registry_get P tree).
Proof.
  induction tree as [node IH] using PyTree_children_ind.
  rewrite leaves_of_eq. destruct (stops_at registry_get P node).
  - constructor; [apply occurs_here|apply Forall_nil].
  - apply Forall_flat_map. rewrite Forall_forall in IH |- *.
    intros c Hc. specialize (IH c Hc). rewrite Forall_forall in IH |- *.
    intros x Hx. apply (occurs_below _ Hc). now apply IH.
Qed.

(** X10.  Every element of the leaf list of [tree_flatten] is the tree
    itself or an object held inside it: flattening returns objects of the
    tree, it makes none up. *)
Theorem tree_flatten_leaves_occur
  (registry_get : PyType -> option PyTreeNodeRegistryEntry)
  (tree : PyTree) (P : option (PyTree -> bool)) :
  exists leaves treespec,
    tree_flatten registry_get tree P = Ok (leaves, treespec) /\
    Forall (fun x => occurs_in x tree) leaves.
Proof.
  do 2 eexists. split; [apply tree_flatten_reference|].
  apply leaves_of_occur.
Qed.
